(** * Offline worklog: the task/timer engine of [assets/js/app.js]

    A shallow embedding of the engine functions of the single-page
    worklog application, and the properties its specification states
    about them.

    Conventions of the embedding.
    - JavaScript strings are Rocq strings read as sequences of ASCII
      characters; [trim] strips the ASCII white space and line
      terminators, [toLowerCase] maps [A-Z] to [a-z].  Characters
      outside ASCII are carried along unchanged.
    - JavaScript numbers are [number]: a finite value (an integer, as
      all the quantities of the engine are millisecond counts, taken
      in the range where a double holds every integer and prints all
      its digits), [NaN] or an infinity.
    - A JavaScript object read dynamically (a stored record) is a
      [gmap string value]; an absent key reads as [VUndefined].
    - A thrown [TypeError] is the result [None].
    - Every reading of [Date.now()] is an explicit argument of the
      function that performs it, in the order of the readings; the
      locale rendering of the current date is an argument as well. *)

From Stdlib Require Import ZArith Ascii.
From stdpp Require Import gmap strings list fin_maps pretty.

Local Open Scope Z_scope.

(** ** Strings *)

Module JsString.

(** The double quote and the line feed, by their codes. *)
Definition dquote : ascii := "034"%char.
Definition newline : ascii := "010"%char.

(** White space and line terminators of [String.prototype.trim]
    within ASCII: TAB, LF, VT, FF, CR and SPACE. *)
Definition isWhiteSpace (c : ascii) : bool :=
  let n := N_of_ascii c in
  ((9 <=? n) && (n <=? 13) || (n =? 32))%N.

Fixpoint trimStart (s : string) : string :=
  match s with
  | EmptyString => EmptyString
  | String c s' => if isWhiteSpace c then trimStart s' else s
  end.

Fixpoint trimEnd (s : string) : string :=
  match s with
  | EmptyString => EmptyString
  | String c s' =>
      match trimEnd s' with
      | EmptyString =>
          if isWhiteSpace c then EmptyString else String c EmptyString
      | r => String c r
      end
  end.

(** [s.trim()] *)
Definition trim (s : string) : string := trimEnd (trimStart s).

Definition lowerChar (c : ascii) : ascii :=
  let n := N_of_ascii c in
  if ((65 <=? n) && (n <=? 90))%N then ascii_of_N (n + 32) else c.

(** [s.toLowerCase()] *)
Fixpoint toLowerCase (s : string) : string :=
  match s with
  | EmptyString => EmptyString
  | String c s' => String (lowerChar c) (toLowerCase s')
  end.

(** The global replacement of [exportTask]: every double quote of
    [s] is written twice. *)
Fixpoint doubleQuotes (s : string) : string :=
  match s with
  | EmptyString => EmptyString
  | String c s' =>
      if Ascii.eqb c dquote
      then String dquote (String dquote (doubleQuotes s'))
      else String c (doubleQuotes s')
  end.

(** [parts.join(sep)] *)
Fixpoint join (sep : string) (parts : list string) : string :=
  match parts with
  | [] => EmptyString
  | [p] => p
  | p :: rest => p +:+ sep +:+ join sep rest
  end.

(** [s.padStart(2, '0')] *)
Definition padStart2 (s : string) : string :=
  match String.length s with
  | 0%nat => "00"
  | 1%nat => "0" +:+ s
  | _ => s
  end.

End JsString.

(** ** Dynamic values and stored records *)

Module Json.
Import JsString.

Inductive number :=
  | Finite (z : Z)
  | NaN
  | Infinity (negative : bool).

#[warning="-register-all"]
Inductive value :=
  | VUndefined
  | VNull
  | VBool (b : bool)
  | VNum (n : number)
  | VStr (s : string)
  | VArr (l : list value)
  | VObj (o : gmap string value).

(** [o.k]: an absent property reads as [undefined]. *)
Definition get (o : gmap string value) (k : string) : value :=
  default VUndefined (o !! k).

(** ToBoolean *)
Definition truthy (v : value) : bool :=
  match v with
  | VUndefined | VNull => false
  | VBool b => b
  | VNum (Finite z) => negb (z =? 0)
  | VNum NaN => false
  | VNum (Infinity _) => true
  | VStr s => negb (String.eqb s EmptyString)
  | VArr _ | VObj _ => true
  end.

(** [a || b] *)
Definition orElse (a b : value) : value := if truthy a then a else b.

(** [a ?? b] *)
Definition coalesce (a b : value) : value :=
  match a with
  | VUndefined | VNull => b
  | _ => a
  end.

(** [Number.isFinite(v)] *)
Definition isFinite (v : value) : bool :=
  match v with
  | VNum (Finite _) => true
  | _ => false
  end.

(** [Array.isArray(v)] *)
Definition isArray (v : value) : bool :=
  match v with
  | VArr _ => true
  | _ => false
  end.

(** [v?.trim()]: [undefined] on a nullish receiver, the trimmed
    string on a string, and a [TypeError] on any other value, which
    has no [trim] method to call. *)
Definition optionalTrim (v : value) : option value :=
  match v with
  | VUndefined | VNull => Some VUndefined
  | VStr s => Some (VStr (trim s))
  | _ => None
  end.

(** [normalizeTask(task)], with [now] the reading of [Date.now()]. *)
Definition normalizeTask (now : Z) (task : gmap string value)
  : option (gmap string value) :=
  let createdAt :=
    if isFinite (get task "createdAt") then get task "createdAt"
    else VNum (Finite now) in
  let lastUpdatedMs :=
    if isFinite (get task "lastUpdatedMs") then get task "lastUpdatedMs"
    else createdAt in
  trimmed ← optionalTrim (get task "name");
  let normalized :=
    <["lastChecked" := coalesce (get task "lastChecked") VNull]>
    (<["lastUpdatedMs" := lastUpdatedMs]>
    (<["createdAt" := createdAt]>
    (<["isArchived" := VBool (truthy (get task "isArchived"))]>
    (<["isRunning" := VBool false]>
    (<["elapsedMs" :=
         if isFinite (get task "elapsedMs") then get task "elapsedMs"
         else VNum (Finite 0)]>
    (<["logs" :=
         if isArray (get task "logs") then get task "logs" else VArr []]>
    (<["description" := orElse (get task "description") (VStr EmptyString)]>
    (<["name" := orElse trimmed (VStr "Untitled item")]>
     task)))))))) in
  Some (delete "startedAt" normalized).

(** The keys under which [calculateDuplicates] counts a task. *)
Definition nameKey (task : gmap string value) : string :=
  match get task "name" with
  | VStr s => toLowerCase (trim s)
  | _ => EmptyString
  end.

Definition referenceKey (task : gmap string value) : string :=
  match get task "reference" with
  | VStr s => toLowerCase (trim s)
  | _ => EmptyString
  end.

(** [if (key) counts.set(key, (counts.get(key) || 0) + 1)] *)
Definition bump (counts : gmap string nat) (key : string) : gmap string nat :=
  if String.eqb key EmptyString then counts
  else <[key := (default 0%nat (counts !! key) + 1)%nat]> counts.

(** [new Set([...counts.entries()].filter(([, count]) => count > 1)
                                  .map(([key]) => key))] *)
Definition repeated (counts : gmap string nat) : gset string :=
  list_to_set
    (fst <$> filter (λ entry, (1 < entry.2)%nat) (map_to_list counts)).

Record Duplicates := { names : gset string; references : gset string }.

(** [calculateDuplicates(tasks)] *)
Definition calculateDuplicates (tasks : list (gmap string value))
  : Duplicates :=
  let nameCounts := foldl (λ m task, bump m (nameKey task)) ∅ tasks in
  let referenceCounts :=
    foldl (λ m task, bump m (referenceKey task)) ∅ tasks in
  {| names := repeated nameCounts; references := repeated referenceCounts |}.

End Json.

(** ** The task store and the timer engine *)

Module Log.
(** An entry of [task.logs], as [finalizeLog] builds it. *)
Record t := mk {
  date : string;
  duration : string;
  comment : string;
  timestamp : Z;
}.
End Log.

Module Task.
Import Json.

(** A task of [state.tasks], as [normalizeTask] leaves it: [name] is
    a string, [elapsedMs] a number, [logs] an array, and
    [isRunning] and [isArchived] are booleans.  [startedAt] is
    [None] while the property is absent. *)
Record t := mk {
  id : string;
  type : string;
  name : string;
  reference : string;
  description : string;
  isCritical : bool;
  elapsedMs : number;
  logs : list Log.t;
  isRunning : bool;
  startedAt : option Z;
  isArchived : bool;
  lastLog : option string;
  createdAt : Z;
  lastUpdatedMs : Z;
  lastChecked : option Z;
}.

(** Assignments to one property. *)
Definition set_elapsedMs (v : number) (x : t) : t :=
  mk (id x) (type x) (name x) (reference x) (description x) (isCritical x)
     v (logs x) (isRunning x) (startedAt x) (isArchived x) (lastLog x)
     (createdAt x) (lastUpdatedMs x) (lastChecked x).
Definition set_logs (v : list Log.t) (x : t) : t :=
  mk (id x) (type x) (name x) (reference x) (description x) (isCritical x)
     (elapsedMs x) v (isRunning x) (startedAt x) (isArchived x) (lastLog x)
     (createdAt x) (lastUpdatedMs x) (lastChecked x).
Definition set_isRunning (v : bool) (x : t) : t :=
  mk (id x) (type x) (name x) (reference x) (description x) (isCritical x)
     (elapsedMs x) (logs x) v (startedAt x) (isArchived x) (lastLog x)
     (createdAt x) (lastUpdatedMs x) (lastChecked x).
Definition set_startedAt (v : option Z) (x : t) : t :=
  mk (id x) (type x) (name x) (reference x) (description x) (isCritical x)
     (elapsedMs x) (logs x) (isRunning x) v (isArchived x) (lastLog x)
     (createdAt x) (lastUpdatedMs x) (lastChecked x).
Definition set_isArchived (v : bool) (x : t) : t :=
  mk (id x) (type x) (name x) (reference x) (description x) (isCritical x)
     (elapsedMs x) (logs x) (isRunning x) (startedAt x) v (lastLog x)
     (createdAt x) (lastUpdatedMs x) (lastChecked x).
Definition set_lastLog (v : option string) (x : t) : t :=
  mk (id x) (type x) (name x) (reference x) (description x) (isCritical x)
     (elapsedMs x) (logs x) (isRunning x) (startedAt x) (isArchived x) v
     (createdAt x) (lastUpdatedMs x) (lastChecked x).
Definition set_lastUpdatedMs (v : Z) (x : t) : t :=
  mk (id x) (type x) (name x) (reference x) (description x) (isCritical x)
     (elapsedMs x) (logs x) (isRunning x) (startedAt x) (isArchived x)
     (lastLog x) (createdAt x) v (lastChecked x).
Definition set_lastChecked (v : option Z) (x : t) : t :=
  mk (id x) (type x) (name x) (reference x) (description x) (isCritical x)
     (elapsedMs x) (logs x) (isRunning x) (startedAt x) (isArchived x)
     (lastLog x) (createdAt x) (lastUpdatedMs x) v.
End Task.

Module Pending.
Import Json.

(** [state.pendingLog], when it is not [null]. *)
Record t := mk {
  id : string;
  duration : number;
}.
End Pending.

Module Engine.
Import JsString Json.

(** The number addition of [task.elapsedMs += duration]. *)
Definition add (a b : number) : number :=
  match a, b with
  | Finite x, Finite y => Finite (x + y)
  | NaN, _ | _, NaN => NaN
  | Infinity p, Infinity q => if Bool.eqb p q then Infinity p else NaN
  | Infinity p, Finite _ | Finite _, Infinity p => Infinity p
  end.

(** [Date.now() - task.startedAt]: an absent [startedAt] is
    [undefined], and the difference is then [NaN]. *)
Definition since (now : Z) (startedAt : option Z) : number :=
  match startedAt with
  | Some t0 => Finite (now - t0)
  | None => NaN
  end.

(** [formatDuration(ms)] *)
Definition formatDuration (ms : number) : string :=
  match ms with
  | Finite z =>
      let totalSeconds := z `div` 1000 in
      let hours := padStart2 (pretty (totalSeconds `div` 3600)) in
      let minutes :=
        padStart2 (pretty ((totalSeconds `rem` 3600) `div` 60)) in
      let seconds := padStart2 (pretty (totalSeconds `rem` 60)) in
      hours +:+ ":" +:+ minutes +:+ ":" +:+ seconds
  | NaN => "NaN:NaN:NaN"
  | Infinity false => "Infinity:NaN:NaN"
  | Infinity true => "-Infinity:NaN:NaN"
  end.

(** The engine's part of the global [state], with the two pieces of
    the log dialog that the handlers write: the text of
    [#logWarning] and whether the dialog is shown.  [timers] holds
    the ids that have an interval armed.

    [persist()] and [render()] read the state and leave it as it is;
    the handlers below do not mention them.  What [persist()] writes
    to the storage slot is [Storage.persist] of the state. *)
Record State := mkState {
  tasks : list Task.t;
  timers : gset string;
  pendingLog : option Pending.t;
  logWarning : string;
  dialogOpen : bool;
}.

(** [tasks.find((t) => t.id === id)] *)
Fixpoint findTask (id : string) (ts : list Task.t) : option Task.t :=
  match ts with
  | [] => None
  | t :: rest => if decide (Task.id t = id) then Some t else findTask id rest
  end.

(** The mutation of the object that [find] returned, seen in the
    array: the first task with that id is replaced by [f] of it. *)
Fixpoint mutateTask (id : string) (f : Task.t → Task.t) (ts : list Task.t)
  : list Task.t :=
  match ts with
  | [] => []
  | t :: rest =>
      if decide (Task.id t = id) then f t :: rest
      else t :: mutateTask id f rest
  end.

(** [tasks.splice(tasks.findIndex((t) => t.id === id), 1)] *)
Fixpoint removeTask (id : string) (ts : list Task.t) : list Task.t :=
  match ts with
  | [] => []
  | t :: rest =>
      if decide (Task.id t = id) then rest else t :: removeTask id rest
  end.

(** [startTimer(id)]; [now1] and [now2] are its two clock readings. *)
Definition startTimer (id : string) (now1 now2 : Z) (s : State) : State :=
  match findTask id (tasks s) with
  | None => s
  | Some task =>
      if Task.isRunning task || Task.isArchived task then s
      else
        mkState
          (mutateTask id
             (λ task, Task.set_lastUpdatedMs now2
                        (Task.set_startedAt (Some now1)
                           (Task.set_isRunning true task)))
             (tasks s))
          ({[id]} ∪ timers s)
          (pendingLog s) (logWarning s) (dialogOpen s)
  end.

Definition discardNotice : string :=
  "Leaving this empty will discard the tracked time.".

(** [stopTimer(id)]; [now1] is read for the duration, [now2] for
    [lastUpdatedMs].  Of the dialog, the cleared comment field and the
    displayed duration are not kept in the state. *)
Definition stopTimer (id : string) (now1 now2 : Z) (s : State) : State :=
  match findTask id (tasks s) with
  | None => s
  | Some task =>
      if negb (Task.isRunning task) then s
      else
        let duration := since now1 (Task.startedAt task) in
        mkState
          (mutateTask id
             (λ task, Task.set_lastUpdatedMs now2
                        (Task.set_startedAt None
                           (Task.set_isRunning false task)))
             (tasks s))
          (timers s ∖ {[id]})
          (Some (Pending.mk (Task.id task) duration))
          discardNotice
          true
  end.

(** The separator of [lastLog]: a space, a middle dot (U+00B7, two
    bytes in UTF-8) and a space. *)
Definition middot : string :=
  String " " (String "194" (String "183" (String " " EmptyString))).

(** [finalizeLog(comment)]; [today] is the locale rendering of the
    current date and [now] the reading taken for [timestamp]. *)
Definition finalizeLog (comment today : string) (now : Z) (s : State)
  : State :=
  match pendingLog s with
  | None => s
  | Some pending =>
      match findTask (Pending.id pending) (tasks s) with
      | None => s
      | Some _ =>
          let entry :=
            Log.mk today (formatDuration (Pending.duration pending))
                   comment now in
          mkState
            (mutateTask (Pending.id pending)
               (λ task,
                  Task.set_lastChecked (Some (Log.timestamp entry))
                    (Task.set_lastUpdatedMs (Log.timestamp entry)
                       (Task.set_lastLog
                          (Some (Log.date entry +:+ middot
                                 +:+ Log.duration entry))
                          (Task.set_logs (entry :: Task.logs task)
                             (Task.set_elapsedMs
                                (add (Task.elapsedMs task)
                                     (Pending.duration pending))
                                task)))))
               (tasks s))
            (timers s) None (logWarning s) (dialogOpen s)
      end
  end.

Definition commentRequired : string :=
  "You must enter a log comment to keep this time.".

(** The submit handler of the log form; [text] is the content of the
    comment field. *)
Definition submitLog (text today : string) (now : Z) (s : State) : State :=
  let comment := trim text in
  match pendingLog s with
  | None => s
  | Some _ =>
      if String.eqb comment EmptyString then
        mkState (tasks s) (timers s) (pendingLog s) commentRequired
                (dialogOpen s)
      else
        let s' := finalizeLog comment today now s in
        mkState (tasks s') (timers s') (pendingLog s') (logWarning s') false
  end.

(** The click handler of the discard button. *)
Definition discardLog (now : Z) (s : State) : State :=
  match pendingLog s with
  | None => s
  | Some pending =>
      mkState
        (mutateTask (Pending.id pending)
           (λ task, Task.set_lastUpdatedMs now
                      (Task.set_lastLog (Some "Discarded session")
                         (Task.set_isRunning false task)))
           (tasks s))
        (timers s) None (logWarning s) false
  end.

(** [markChecked(id)] *)
Definition markChecked (id : string) (now : Z) (s : State) : State :=
  match findTask id (tasks s) with
  | None => s
  | Some _ =>
      mkState
        (mutateTask id
           (λ task, Task.set_lastUpdatedMs
                      (Z.max (Task.lastUpdatedMs task) now)
                      (Task.set_lastChecked (Some now) task))
           (tasks s))
        (timers s) (pendingLog s) (logWarning s) (dialogOpen s)
  end.

(** [archiveTask(id)] *)
Definition archiveTask (id : string) (now : Z) (s : State) : State :=
  match findTask id (tasks s) with
  | None => s
  | Some task =>
      if Task.isRunning task then s
      else
        mkState
          (mutateTask id
             (λ task, Task.set_lastUpdatedMs now
                        (Task.set_isArchived (negb (Task.isArchived task))
                           task))
             (tasks s))
          (timers s) (pendingLog s) (logWarning s) (dialogOpen s)
  end.

(** [deleteTask(id)]; [confirmed] is the answer to the browser's
    confirmation box. *)
Definition deleteTask (id : string) (confirmed : bool) (s : State) : State :=
  match findTask id (tasks s) with
  | None => s
  | Some task =>
      if Task.isRunning task then s
      else if negb confirmed then s
      else
        mkState (removeTask id (tasks s)) (timers s ∖ {[id]})
                (pendingLog s) (logWarning s) (dialogOpen s)
  end.

(** The submit handler of the task form.  [uuid] is the result of
    [crypto.randomUUID()], and [taskCode] the code that the form or
    the counter supplies for an item that is not a project.  The new
    record goes through [normalizeTask], which leaves the fields of
    the literal as they are and reads the name once more through
    [trim]. *)
Definition submitTask (uuid itemType name description : string)
    (critical : bool) (reference taskCode : string) (now : Z) (s : State)
  : State :=
  let name := trim name in
  let description := trim description in
  let reference := trim reference in
  if String.eqb name EmptyString then s
  else if String.eqb itemType "project" && String.eqb reference EmptyString
  then s
  else
    let task :=
      Task.mk uuid itemType
        (if String.eqb (trim name) EmptyString then "Untitled item"
         else trim name)
        (if String.eqb itemType "project" then reference
         else "Task #" +:+ taskCode)
        description critical (Finite 0) [] false None false None
        now now None in
    mkState (task :: tasks s) (timers s) (pendingLog s) (logWarning s)
            (dialogOpen s).

(** The quoting of one CSV field in [exportTask]. *)
Definition quoteField (v : string) : string :=
  String dquote (doubleQuotes v) +:+ String dquote EmptyString.

(** [exportTask(task)]: the text of the CSV blob that is offered for
    download, or [None] when the function only alerts that there are
    no logs. *)
Definition exportTask (task : Task.t) : option string :=
  match Task.logs task with
  | [] => None
  | _ =>
      let headers := ["Name"; "Date"; "Time Spent"; "Comment"] in
      let rows :=
        (λ log, [Task.name task; Log.date log; Log.duration log;
                 Log.comment log]) <$> Task.logs task in
      Some (join (String newline EmptyString)
              ((λ row, join "," (quoteField <$> row)) <$> headers :: rows))
  end.

(** *** Runs of the engine *)

(** The handlers an operator can trigger. *)
Inductive event :=
  | SubmitTask (uuid itemType name description : string) (critical : bool)
               (reference taskCode : string) (now : Z)
  | StartTimer (id : string) (now1 now2 : Z)
  | StopTimer (id : string) (now1 now2 : Z)
  | SubmitLog (text today : string) (now : Z)
  | DiscardLog (now : Z)
  | MarkChecked (id : string) (now : Z)
  | ArchiveTask (id : string) (now : Z)
  | DeleteTask (id : string) (confirmed : bool).

Definition handle (e : event) (s : State) : State :=
  match e with
  | SubmitTask uuid itemType name description critical reference taskCode now =>
      submitTask uuid itemType name description critical reference taskCode
                 now s
  | StartTimer id now1 now2 => startTimer id now1 now2 s
  | StopTimer id now1 now2 => stopTimer id now1 now2 s
  | SubmitLog text today now => submitLog text today now s
  | DiscardLog now => discardLog now s
  | MarkChecked id now => markChecked id now s
  | ArchiveTask id now => archiveTask id now s
  | DeleteTask id confirmed => deleteTask id confirmed s
  end.

(** The clock readings of a handler, in the order they are taken. *)
Definition readings (e : event) : list Z :=
  match e with
  | SubmitTask _ _ _ _ _ _ _ now | SubmitLog _ _ now | DiscardLog now
  | MarkChecked _ now | ArchiveTask _ now => [now]
  | StartTimer _ now1 now2 | StopTimer _ now1 now2 => [now1; now2]
  | DeleteTask _ _ => []
  end.

(** The readings of a clock that stood at [clock] and never runs
    backwards, and where it stands after them. *)
Fixpoint ticks (clock : Z) (rs : list Z) (clock' : Z) : Prop :=
  match rs with
  | [] => clock' = clock
  | r :: rest => clock ≤ r ∧ ticks r rest clock'
  end.

(** The state that [bootstrapApp] builds from the normalized tasks. *)
Definition bootstrapState (ts : list Task.t) (warning : string) : State :=
  mkState ts ∅ None warning false.

(** What [normalizeTask] guarantees of a task it returns. *)
Definition restored (t : Task.t) : Prop :=
  Task.isRunning t = false ∧ Task.startedAt t = None.

(** The states the engine reaches from a bootstrap, each with the
    last reading of the clock. *)
Inductive reachable : Z → State → Prop :=
  | reach_bootstrap clock ts warning :
      Forall restored ts → reachable clock (bootstrapState ts warning)
  | reach_handle clock s e clock' :
      reachable clock s → ticks clock (readings e) clock' →
      reachable clock' (handle e s).

(** The states the engine reaches from a bootstrap whatever the clock
    reads, also where a reading is earlier than the one before it. *)
Inductive reached : State → Prop :=
  | reached_bootstrap ts warning :
      Forall restored ts → reached (bootstrapState ts warning)
  | reached_handle s e : reached s → reached (handle e s).

(** One timer session on a task, confirmed with a comment: the
    readings of [startTimer] and [stopTimer], and the arguments of
    the log form's submission. *)
Record Session := mkSession {
  startedRead : Z;
  startedStamp : Z;
  stoppedRead : Z;
  stoppedStamp : Z;
  text : string;
  today : string;
  confirmedRead : Z;
}.

Definition sessionMs (x : Session) : Z := stoppedRead x - startedRead x.

Definition runSession (id : string) (s : State) (x : Session) : State :=
  submitLog (text x) (today x) (confirmedRead x)
    (stopTimer id (stoppedRead x) (stoppedStamp x)
       (startTimer id (startedRead x) (startedStamp x) s)).

Definition runSessions (id : string) (xs : list Session) (s : State) : State :=
  foldl (runSession id) s xs.

Definition totalMs (xs : list Session) : Z :=
  foldr (λ x acc, sessionMs x + acc) 0 xs.

End Engine.

(** ** Saving and restoring *)

Module Storage.
Import Json Engine.

(** [JSON.stringify] writes [NaN] and the infinities as [null]. *)
Definition numberToJson (n : number) : value :=
  match n with
  | Finite z => VNum (Finite z)
  | _ => VNull
  end.

Definition nullable {A} (f : A → value) (x : option A) : value :=
  match x with
  | Some a => f a
  | None => VNull
  end.

Definition logToJson (l : Log.t) : value :=
  VObj (list_to_map
    [("date", VStr (Log.date l)); ("duration", VStr (Log.duration l));
     ("comment", VStr (Log.comment l));
     ("timestamp", VNum (Finite (Log.timestamp l)))]).

(** A task as [JSON.parse] reads back what [JSON.stringify] wrote of
    it; an absent [startedAt] stays absent. *)
Definition taskToJson (t : Task.t) : gmap string value :=
  let fields : gmap string value :=
    list_to_map
      [("id", VStr (Task.id t)); ("type", VStr (Task.type t));
       ("name", VStr (Task.name t));
       ("reference", VStr (Task.reference t));
       ("description", VStr (Task.description t));
       ("isCritical", VBool (Task.isCritical t));
       ("elapsedMs", numberToJson (Task.elapsedMs t));
       ("logs", VArr (logToJson <$> Task.logs t));
       ("isRunning", VBool (Task.isRunning t));
       ("isArchived", VBool (Task.isArchived t));
       ("lastLog", nullable VStr (Task.lastLog t));
       ("createdAt", VNum (Finite (Task.createdAt t)));
       ("lastUpdatedMs", VNum (Finite (Task.lastUpdatedMs t)));
       ("lastChecked", nullable (λ z, VNum (Finite z)) (Task.lastChecked t))]
  in
  match Task.startedAt t with
  | Some z => <["startedAt" := VNum (Finite z)]> fields
  | None => fields
  end.

(** [persist()]: the [tasks] array of the payload in the storage
    slot. *)
Definition persist (s : State) : list (gmap string value) :=
  taskToJson <$> tasks s.

(** [seededTasks.map(normalizeTask)]; the call on the task at index
    [i] reads the clock as [now i]. *)
Fixpoint normalizeFrom (now : nat → Z) (i : nat)
    (records : list (gmap string value))
  : option (list (gmap string value)) :=
  match records with
  | [] => Some []
  | r :: rest =>
      n ← normalizeTask (now i) r;
      ns ← normalizeFrom now (S i) rest;
      Some (n :: ns)
  end.

(** [existing?.tasks?.length ? existing.tasks : bootstrap.tasks],
    with [existing] the [tasks] array of the stored payload, if the
    slot holds one. *)
Definition seededTasks (existing : option (list (gmap string value)))
    (bootstrap : list (gmap string value)) : list (gmap string value) :=
  match existing with
  | Some (r :: rest) => r :: rest
  | _ => bootstrap
  end.

(** The tasks that [bootstrapApp] installs. *)
Definition bootstrapTasks (now : nat → Z)
    (existing : option (list (gmap string value)))
    (bootstrap : list (gmap string value))
  : option (list (gmap string value)) :=
  normalizeFrom now 0 (seededTasks existing bootstrap).

End Storage.

Import JsString Json Engine Storage.

(** ** Vocabulary of the statements *)

(** A string that does not begin with white space. *)
Definition inked (s : string) : Prop :=
  match s with
  | EmptyString => True
  | String c _ => isWhiteSpace c = false
  end.

(** A [name] that [normalizeTask] can read: absent, [null] or a
    string. *)
Definition readableName (v : value) : Prop :=
  match v with
  | VUndefined | VNull | VStr _ => True
  | _ => False
  end.

(** A stored record that claims no running session. *)
Definition idle (record : gmap string value) : Prop :=
  record !! "isRunning" = Some (VBool false) ∧ record !! "startedAt" = None.

(** A stored payload that claims a session is running. *)
Definition runningRecord : gmap string value :=
  list_to_map
    [("id", VStr "t1"); ("name", VStr "  "); ("isRunning", VBool true);
     ("startedAt", VNum (Finite 1700000000000)); ("logs", VStr "none");
     ("elapsedMs", VNum NaN)].

(** A stored record whose name is a number. *)
Definition numericName : gmap string value :=
  list_to_map [("id", VStr "t1"); ("name", VNum (Finite 5))].

(** The task has a string in [field] that is [k] once trimmed and
    lower-cased. *)
Definition keyed (field k : string) (task : gmap string value) : Prop :=
  ∃ s, get task field = VStr s ∧ toLowerCase (trim s) = k.

#[local] Instance keyed_dec field k task : Decision (keyed field k task).
Proof.
  unfold keyed.
  destruct (get task field) as [| | | |s| |];
    try (right; intros (s' & ? & _); discriminate).
  destruct (decide (toLowerCase (trim s) = k)) as [Hk|Hk].
  - left. exists s. by split.
  - right. intros (s' & [= <-] & ?). by apply Hk.
Defined.

(** The number of tasks with that key. *)
Definition occurrences (field k : string) (tasks : list (gmap string value))
  : nat :=
  length (filter (keyed field k) tasks).

(** Three stored tasks: two whose names differ in case and trailing
    space only, one of them archived, and one with a name of its own.
    The first two share a reference up to case as well. *)
Definition alpha : gmap string value :=
  list_to_map
    [("id", VStr "a"); ("name", VStr "Alpha"); ("reference", VStr "PRJ-1")].
Definition alphaArchived : gmap string value :=
  list_to_map
    [("id", VStr "b"); ("name", VStr "alpha "); ("reference", VStr " prj-1");
     ("isArchived", VBool true)].
Definition beta : gmap string value :=
  list_to_map
    [("id", VStr "c"); ("name", VStr "Beta"); ("reference", VStr "PRJ-2")].

(** A task as the bootstrap leaves it, and the engine around it. *)
Definition sampleTask : Task.t :=
  Task.mk "t1" "project" "Sample Project" "PRJ-001" EmptyString true
          (Finite 1000) [] false None false None 5 5 None.

Definition sampleState : State := bootstrapState [sampleTask] EmptyString.

(** The sample task with its timer started, and after ten minutes on
    the timer: a session is pending. *)
Definition runningState : State := handle (StartTimer "t1" 10 11) sampleState.

Definition pendingState : State :=
  handle (StopTimer "t1" 600010 600011) runningState.

(** The same, after the task was deleted with its session still
    pending. *)
Definition orphanState : State := handle (DeleteTask "t1" true) pendingState.

(** Two confirmed sessions of the sample task. *)
Definition morning : Session :=
  mkSession 10 11 600010 600011 "wrote the report" "1/1/2024" 600020.
Definition evening : Session :=
  mkSession 700000 700001 1000000 1000002 " reviewed " "1/1/2024" 1000010.

(** A running task has a [startedAt], and it is a reading the clock
    has given. *)
Definition clocked (clock : Z) (t : Task.t) : Prop :=
  Task.isRunning t = true →
  ∃ t0, Task.startedAt t = Some t0 ∧ t0 ≤ clock.

(** A running task has a [startedAt]. *)
Definition started (t : Task.t) : Prop :=
  Task.isRunning t = true → ∃ t0, Task.startedAt t = Some t0.

(** The sample task started when the clock read [1000]; the clock is
    then set back, and reads [900] when the timer is stopped. *)
Definition lateStart : State :=
  handle (StartTimer "t1" 1000 1001) sampleState.

Definition setBack : State := stopTimer "t1" 900 901 lateStart.

(** The header line that [exportTask] writes, and the line of one log
    entry. *)
Definition csvHeader : string :=
  quoteField "Name" +:+ "," +:+ quoteField "Date" +:+ ","
  +:+ quoteField "Time Spent" +:+ "," +:+ quoteField "Comment".

Definition csvRow (task : Task.t) (log : Log.t) : string :=
  quoteField (Task.name task) +:+ "," +:+ quoteField (Log.date log) +:+ ","
  +:+ quoteField (Log.duration log) +:+ "," +:+ quoteField (Log.comment log).

(** Reading back a field in which every double quote was written
    twice; a double quote that stands alone is an error. *)
Fixpoint readDoubled (s : string) : option string :=
  match s with
  | EmptyString => Some EmptyString
  | String c rest =>
      if Ascii.eqb c dquote then
        match rest with
        | String d rest' =>
            if Ascii.eqb d dquote then String dquote <$> readDoubled rest'
            else None
        | EmptyString => None
        end
      else String c <$> readDoubled rest
  end.

(** A text between double quotes. *)
Definition quoted (s : string) : string :=
  String dquote s +:+ String dquote EmptyString.

(** The task of the specification's example, with its one log entry
    whose comment holds two double quotes. *)
Definition taskA : Task.t :=
  Task.mk "a" "task" "Task A" "Task #001" EmptyString false (Finite 600000)
    [Log.mk "1/1/2024" "00:10:00" ("Said " +:+ quoted "hi") 1704103800000]
    false None false (Some ("1/1/2024" +:+ middot +:+ "00:10:00"))
    1704103200000 1704103800000
    (Some 1704103800000).

(** The two lines the specification expects, with a bare header. *)
Definition bareHeaderCsv : string :=
  "Name,Date,Time Spent,Comment" +:+ String newline EmptyString
  +:+ quoted "Task A" +:+ "," +:+ quoted "1/1/2024" +:+ ","
  +:+ quoted "00:10:00" +:+ ","
  +:+ quoted ("Said " +:+ quoted (quoted "hi")).

(** The two lines that [exportTask] writes. *)
Definition quotedHeaderCsv : string :=
  quoted "Name" +:+ "," +:+ quoted "Date" +:+ "," +:+ quoted "Time Spent"
  +:+ "," +:+ quoted "Comment" +:+ String newline EmptyString
  +:+ quoted "Task A" +:+ "," +:+ quoted "1/1/2024" +:+ ","
  +:+ quoted "00:10:00" +:+ ","
  +:+ quoted ("Said " +:+ quoted (quoted "hi")).

(** A run of the engine: the handlers of [es], one after the other. *)
Definition run (es : list event) (s : State) : State :=
  foldl (λ s e, handle e s) s es.

(** The events that neither create nor delete a task with the id. *)
Definition keeps (id : string) (e : event) : Prop :=
  match e with
  | SubmitTask uuid _ _ _ _ _ _ _ => uuid ≠ id
  | DeleteTask id' _ => id' ≠ id
  | _ => True
  end.

(** The durations that a run confirms for the task [id], in the order
    of the confirmations: a submission of the log form with a comment
    that is not blank confirms the session that is pending then. *)
Fixpoint commitments (id : string) (es : list event) (s : State)
  : list number :=
  match es with
  | [] => []
  | e :: rest =>
      match e, pendingLog s with
      | SubmitLog text _ _, Some pending =>
          if decide (Pending.id pending = id ∧ trim text ≠ EmptyString)
          then [Pending.duration pending] else []
      | _, _ => []
      end ++ commitments id rest (handle e s)
  end.

Definition total (ds : list number) : number := foldr add (Finite 0) ds.

(** A day of the sample task in which the two sessions are mixed with
    other handlers, among them the sessions of another task. *)
Definition otherTask : Task.t :=
  Task.mk "t2" "task" "Errands" "Task #001" EmptyString false
          (Finite 0) [] false None false None 6 6 None.

Definition twoTasks : State :=
  bootstrapState [sampleTask; otherTask] EmptyString.

Definition busyDay : list event :=
  [StartTimer "t1" 10 11; MarkChecked "t1" 12; StartTimer "t2" 20 21;
   StopTimer "t1" 600010 600011; SubmitLog "wrote the report" "1/1/2024" 600020;
   StopTimer "t2" 600030 600031; SubmitLog "   " "1/1/2024" 600040;
   SubmitLog "shopping" "1/1/2024" 600050; ArchiveTask "t1" 600060;
   ArchiveTask "t1" 600070; StartTimer "t1" 700000 700001;
   StopTimer "t1" 1000000 1000002; SubmitLog " reviewed " "1/1/2024" 1000010].

(** ** The reference counter *)

Module Counter.
Import JsString Json Engine.

(** The value of a decimal digit. *)
Definition digitValue (c : ascii) : option N :=
  let n := N_of_ascii c in
  if ((48 <=? n) && (n <=? 57))%N then Some (n - 48)%N else None.

(** The number that the longest prefix of digits of [s] writes after
    the digits read so far. *)
Fixpoint readDigits (acc : N) (s : string) : N :=
  match s with
  | EmptyString => acc
  | String c rest =>
      match digitValue c with
      | Some d => readDigits (acc * 10 + d) rest
      | None => acc
      end
  end.

(** [parseInt(s, 10)]: leading white space is skipped, one sign is
    read, and the digits that follow are the value; without a digit
    there the result is [NaN]. *)
Definition parseInt (s : string) : number :=
  let unsigned (negative : bool) (digits : string) : number :=
    match digits with
    | EmptyString => NaN
    | String c _ =>
        match digitValue c with
        | Some _ =>
            let n := Z.of_N (readDigits 0 digits) in
            Finite (if negative then - n else n)
        | None => NaN
        end
    end in
  match trimStart s with
  | EmptyString => NaN
  | String c rest =>
      if Ascii.eqb c "-" then unsigned true rest
      else if Ascii.eqb c "+" then unsigned false rest
      else unsigned false (String c rest)
  end.

(** [String(n)] *)
Definition numberToString (n : number) : string :=
  match n with
  | Finite z => pretty z
  | NaN => "NaN"
  | Infinity false => "Infinity"
  | Infinity true => "-Infinity"
  end.

Fixpoint zeros (n : nat) : string :=
  match n with
  | O => EmptyString
  | S n' => String "0" (zeros n')
  end.

(** [s.padStart(width, '0')] *)
Definition padStart (width : nat) (s : string) : string :=
  zeros (width - String.length s) +:+ s.

(** [nextTaskCode()]: [slot] is what the storage holds under the
    counter key, [None] when the key is absent.  The result is the
    code and the content of the slot afterwards. *)
Definition nextTaskCode (slot : option string) : string * option string :=
  let next :=
    match slot with
    | None => Finite 1
    | Some raw =>
        if String.eqb raw EmptyString then Finite 1
        else add (parseInt raw) (Finite 1)
    end in
  (padStart 3 (numberToString next), Some (numberToString next)).

End Counter.

(** ** What the page shows *)

Module Stats.
(** The four figures that [renderStats] writes. *)
Record t := mk {
  running : nat;
  projects : nat;
  tasks : nat;
  hours : string;
}.
End Stats.

Module View.
Import JsString Json Engine Storage Counter.

(** [currentRunTime(task)], with [now] the reading of the clock.  A
    [startedAt] of [0] is falsy, like an absent one. *)
Definition currentRunTime (now : Z) (task : Task.t) : Z :=
  if negb (Task.isRunning task) then 0
  else
    match Task.startedAt task with
    | None => 0
    | Some t0 => if t0 =? 0 then 0 else now - t0
    end.

(** [formatHours(ms)] *)
Definition formatHours (ms : number) : string :=
  match ms with
  | Finite z =>
      let totalMinutes := z `div` (60 * 1000) in
      let hours := totalMinutes `div` 60 in
      let minutes := totalMinutes `rem` 60 in
      pretty hours +:+ "h " +:+ padStart 2 (pretty minutes) +:+ "m"
  | NaN => "NaNh NaNm"
  | Infinity false => "Infinityh NaNm"
  | Infinity true => "-Infinityh NaNm"
  end.



(** The predicate of the filter in [renderTable], for the values of
    the three filter boxes. *)
Definition matchesFilters (filterType filterCritical filterArchived : string)
    (task : Task.t) : bool :=
  let typeMatch :=
    String.eqb filterType "all" || String.eqb (Task.type task) filterType in
  let criticalMatch :=
    String.eqb filterCritical "all"
    || (if String.eqb filterCritical "critical" then Task.isCritical task
        else negb (Task.isCritical task)) in
  let archiveMatch :=
    String.eqb filterArchived "all"
    || (if String.eqb filterArchived "archived" then Task.isArchived task
        else negb (Task.isArchived task)) in
  typeMatch && criticalMatch && archiveMatch.

(** [filtered] of [renderTable] *)
Definition filtered (filterType filterCritical filterArchived : string)
    (ts : list Task.t) : list Task.t :=
  filter (λ task, matchesFilters filterType filterCritical filterArchived task
                  = true) ts.

(** [a || b] on two numbers that are not [NaN]. *)
Definition orNumber (a b : Z) : Z := if a =? 0 then b else a.

(** [sortTasks(a, b, sortBy)]; [localeCompare] is the comparison of
    strings that the browser's locale gives. *)
Definition sortTasks (localeCompare : string → string → Z)
    (a b : Task.t) (sortBy : string) : Z :=
  let recent :=
    orNumber (Task.lastUpdatedMs b) 0 - orNumber (Task.lastUpdatedMs a) 0 in
  if String.eqb sortBy "critical" then
    orNumber (Z.b2z (Task.isCritical b) - Z.b2z (Task.isCritical a)) recent
  else if String.eqb sortBy "type" then
    orNumber (localeCompare (Task.type a) (Task.type b)) recent
  else if String.eqb sortBy "name" then
    localeCompare (Task.name a) (Task.name b)
  else recent.

(** The two warnings of [updateDuplicateHints], for the values of the
    form and the tasks of the store: whether the note on the name and
    the note on the reference are shown. *)
Definition updateDuplicateHints (itemType name reference : string)
    (ts : list (gmap string value)) : bool * bool :=
  let name := toLowerCase (trim name) in
  let reference := toLowerCase (trim reference) in
  let duplicates := calculateDuplicates ts in
  let isNameDuplicate :=
    negb (String.eqb name EmptyString)
    && bool_decide (name ∈ names duplicates) in
  let shouldCheckReference := String.eqb itemType "project" in
  let isRefDuplicate :=
    shouldCheckReference && negb (String.eqb reference EmptyString)
    && bool_decide (reference ∈ references duplicates) in
  (isNameDuplicate, isRefDuplicate).

(** The two chips of a row in [renderTable]: whether the task is
    marked as a duplicate name and as a duplicate reference among the
    tasks of the store. *)
Definition rowDuplicates (task : Task.t) (s : State) : bool * bool :=
  let duplicates := calculateDuplicates (taskToJson <$> tasks s) in
  let nameKey := toLowerCase (trim (Task.name task)) in
  let refKey := toLowerCase (trim (Task.reference task)) in
  (negb (String.eqb nameKey EmptyString)
   && bool_decide (nameKey ∈ names duplicates),
   negb (String.eqb refKey EmptyString)
   && bool_decide (refKey ∈ references duplicates)).

(** The replacement of every run of white space by one underscore. *)
Fixpoint underscoreSpaces (s : string) : string :=
  match s with
  | EmptyString => EmptyString
  | String c rest =>
      if isWhiteSpace c then
        match rest with
        | String d _ =>
            if isWhiteSpace d then underscoreSpaces rest
            else String "_" (underscoreSpaces rest)
        | EmptyString => String "_" EmptyString
        end
      else String c (underscoreSpaces rest)
  end.

(** The [download] name of the link in [exportTask]. *)
Definition exportFileName (task : Task.t) : string :=
  toLowerCase (underscoreSpaces (Task.name task)) +:+ "_logs.csv".

End View.

Import Counter View.

(** ** Vocabulary of the further statements *)

(** The content of the counter slot after [k] calls of
    [nextTaskCode]. *)
Definition slotAfter (k : nat) (slot : option string) : option string :=
  Nat.iter k (λ slot, (nextTaskCode slot).2) slot.

(** A sequence of events on a clock that does not run backwards,
    which stood at [clock] before and stands at [clock'] after. *)
Fixpoint timed (clock : Z) (es : list event) (clock' : Z) : Prop :=
  match es with
  | [] => clock' = clock
  | e :: rest => ∃ mid, ticks clock (readings e) mid ∧ timed mid rest clock'
  end.

(** The task was created before its last update, and updated before
    the clock's last reading. *)
Definition stamped (clock : Z) (t : Task.t) : Prop :=
  Task.createdAt t ≤ Task.lastUpdatedMs t ∧ Task.lastUpdatedMs t ≤ clock.


(** A task that a reload gives back as it was saved: its name is
    trimmed and not empty and its [elapsedMs] is finite. *)
Definition sound (t : Task.t) : Prop :=
  trim (Task.name t) = Task.name t ∧ Task.name t ≠ EmptyString
  ∧ ∃ ms, Task.elapsedMs t = Finite ms.

(** The task with its session dropped. *)
Definition halted (t : Task.t) : Task.t :=
  Task.set_startedAt None (Task.set_isRunning false t).

(** The text of a table whose fields are all written by
    [quoteField]. *)
Definition csvText (rows : list (list string)) : string :=
  join (String newline EmptyString)
       ((λ row, join "," (quoteField <$> row)) <$> rows).

(** A text that does not begin with a double quote. *)
Definition unquoted (tail : string) : Prop :=
  match tail with
  | EmptyString => True
  | String c _ => Ascii.eqb c dquote = false
  end.

(** Reading a quoted field from behind its opening quote: the content,
    with every doubled quote read as one, and the text behind the
    closing quote. *)
Fixpoint readField (s : string) : option (string * string) :=
  match s with
  | EmptyString => None
  | String c rest =>
      if Ascii.eqb c dquote then
        match rest with
        | String d rest' =>
            if Ascii.eqb d dquote then
              (λ p, (String dquote p.1, p.2)) <$> readField rest'
            else Some (EmptyString, rest)
        | EmptyString => Some (EmptyString, EmptyString)
        end
      else (λ p, (String c p.1, p.2)) <$> readField rest
  end.

(** Reading a table of quoted fields, with commas between the fields
    of a row and line feeds between the rows; [fuel] bounds the number
    of fields. *)
Fixpoint readCsv (fuel : nat) (s : string) : option (list (list string)) :=
  match fuel, s with
  | S fuel', String q body =>
      if Ascii.eqb q dquote then
        match readField body with
        | Some (field, EmptyString) => Some [[field]]
        | Some (field, String c rest) =>
            if Ascii.eqb c "," then
              match readCsv fuel' rest with
              | Some (row :: more) => Some ((field :: row) :: more)
              | _ => None
              end
            else if Ascii.eqb c newline then
              match readCsv fuel' rest with
              | Some rows => Some ([field] :: rows)
              | None => None
              end
            else None
        | None => None
        end
      else None
  | _, _ => None
  end.

(** The rows that [exportTask] writes for a task. *)
Definition csvRows (task : Task.t) : list (list string) :=
  ["Name"; "Date"; "Time Spent"; "Comment"]
  :: ((λ log, [Task.name task; Log.date log; Log.duration log;
               Log.comment log]) <$> Task.logs task).

(** A comparison of strings by length, which is one consistent
    [localeCompare]. *)
Definition byLength (a b : string) : Z :=
  Z.of_nat (String.length a) - Z.of_nat (String.length b).

(** A log entry whose comment holds a comma, double quotes and a line
    feed. *)
Definition awkwardTask : Task.t :=
  Task.mk "a" "task" "Task, A" "Task #001" EmptyString false (Finite 600000)
    [Log.mk "1/1/2024" "00:10:00"
       ("Said " +:+ quoted "hi" +:+ "," +:+ String newline "then left")
       1704103800000]
    false None false None 1704103200000 1704103800000 None.


(** A store in which a later task repeats the name of the sample task,
    up to case and the white space around it. *)
Definition namesake : Task.t :=
  Task.mk "t3" "task" "  sample PROJECT " "Task #002" EmptyString false
          (Finite 0) [] false None false None 7 7 None.

Definition namesakes : State :=
  bootstrapState [sampleTask; otherTask; namesake] EmptyString.

(** The sample task after a discard that followed a second start: the
    timer was started again while the session of the first run was
    still pending, and the discard set [isRunning] back but left the
    [startedAt] of the second start. *)
Definition staleState : State :=
  handle (DiscardLog 700000)
         (handle (StartTimer "t1" 650000 650001) pendingState).

Definition staleTask : Task.t :=
  Task.mk "t1" "project" "Sample Project" "PRJ-001" EmptyString true
          (Finite 1000) [] false (Some 650000) false
          (Some "Discarded session") 5 700000 None.
(** * Properties *)

Example trim_example : trim "  alpha beta  " = "alpha beta".
Proof. reflexivity. Qed.

Example formatDuration_example : formatDuration (Finite 3661000) = "01:01:01".
Proof. reflexivity. Qed.

(** ** Strings *)

Section Trim.

Lemma trimStart_inked s : inked (trimStart s).
Proof.
  induction s as [|c s IH]; simpl; [done|].
  destruct (isWhiteSpace c) eqn:E; [done|]. simpl. done.
Qed.

Lemma trimStart_id s : inked s → trimStart s = s.
Proof. destruct s as [|c s]; simpl; [done|]. by intros ->. Qed.

Lemma trimEnd_inked s : inked s → inked (trimEnd s).
Proof.
  destruct s as [|c s]; simpl; [done|]. intros E.
  destruct (trimEnd s); by rewrite ?E.
Qed.

Lemma trimEnd_idem s : trimEnd (trimEnd s) = trimEnd s.
Proof.
  induction s as [|c s IH]; simpl; [done|].
  destruct (trimEnd s) as [|d r] eqn:E.
  - destruct (isWhiteSpace c) eqn:W; simpl; by rewrite ?W.
  - change (trimEnd (String c (String d r))) with
      (match trimEnd (String d r) with
       | EmptyString =>
           if isWhiteSpace c then EmptyString else String c EmptyString
       | r' => String c r'
       end).
    by rewrite IH.
Qed.

Lemma trim_idem s : trim (trim s) = trim s.
Proof.
  unfold trim.
  rewrite (trimStart_id (trimEnd (trimStart s))).
  - apply trimEnd_idem.
  - apply trimEnd_inked, trimStart_inked.
Qed.

End Trim.

(** ** The normalizer *)

Section Normalizer.

Implicit Types (raw n : gmap string value) (now : Z).

Lemma get_lookup raw k v : raw !! k = Some v → get raw k = v.
Proof. unfold get. by intros ->. Qed.

Lemma optionalTrim_readable v :
  readableName v → is_Some (optionalTrim v).
Proof. destruct v; simpl; by eauto. Qed.

Lemma readable_optionalTrim v w : optionalTrim v = Some w → readableName v.
Proof. by destruct v. Qed.

(** The record that [normalizeTask] returns, field by field. *)
Lemma normalizeTask_Some now raw n :
  normalizeTask now raw = Some n →
  ∃ trimmed, optionalTrim (get raw "name") = Some trimmed
  ∧ n !! "name" = Some (orElse trimmed (VStr "Untitled item"))
  ∧ n !! "description"
    = Some (orElse (get raw "description") (VStr EmptyString))
  ∧ n !! "logs"
    = Some (if isArray (get raw "logs") then get raw "logs" else VArr [])
  ∧ n !! "elapsedMs"
    = Some (if isFinite (get raw "elapsedMs") then get raw "elapsedMs"
            else VNum (Finite 0))
  ∧ n !! "isRunning" = Some (VBool false)
  ∧ n !! "isArchived" = Some (VBool (truthy (get raw "isArchived")))
  ∧ n !! "createdAt"
    = Some (if isFinite (get raw "createdAt") then get raw "createdAt"
            else VNum (Finite now))
  ∧ n !! "lastUpdatedMs"
    = Some (if isFinite (get raw "lastUpdatedMs")
            then get raw "lastUpdatedMs"
            else if isFinite (get raw "createdAt") then get raw "createdAt"
            else VNum (Finite now))
  ∧ n !! "lastChecked" = Some (coalesce (get raw "lastChecked") VNull)
  ∧ n !! "startedAt" = None.
Proof.
  unfold normalizeTask. intros H.
  destruct (optionalTrim (get raw "name")) as [trimmed|] eqn:E;
    simpl in H; [|done].
  injection H as <-. exists trimmed. split; [done|].
  repeat split; by simplify_map_eq.
Qed.

End Normalizer.

Section NormalizerFixpoint.

Implicit Types (raw n : gmap string value) (now : Z).

Lemma eqb_empty_false s : String.eqb s EmptyString = false ↔ s ≠ EmptyString.
Proof. by rewrite String.eqb_neq. Qed.

(** The name that the normalizer writes is a trimmed, non-empty
    string. *)
Lemma normalized_name trimmed v :
  optionalTrim v = Some trimmed →
  ∃ s, orElse trimmed (VStr "Untitled item") = VStr s
       ∧ trim s = s ∧ s ≠ EmptyString.
Proof.
  destruct v as [| | | |s| |]; simpl; intros [= <-];
    try (by exists "Untitled item").
  unfold orElse. simpl.
  destruct (String.eqb (trim s) EmptyString) eqn:E; simpl.
  - by exists "Untitled item".
  - exists (trim s). rewrite trim_idem. by apply eqb_empty_false in E.
Qed.

Lemma orElse_idem v d : truthy d = false → orElse (orElse v d) d = orElse v d.
Proof. unfold orElse. intros Hd. destruct (truthy v) eqn:E; by rewrite ?E, ?Hd. Qed.

Lemma coalesce_idem v : coalesce (coalesce v VNull) VNull = coalesce v VNull.
Proof. by destruct v. Qed.

Lemma finite_or_idem v d :
  isFinite d = true →
  isFinite (if isFinite v then v else d) = true.
Proof. intros Hd. by destruct (isFinite v) eqn:E. Qed.

Lemma array_or_idem v : isArray (if isArray v then v else VArr []) = true.
Proof. by destruct (isArray v) eqn:E. Qed.

(** A record that the normalizer returned is returned as it is. *)
Lemma normalizeTask_fixpoint now1 now2 raw n :
  normalizeTask now1 raw = Some n → normalizeTask now2 n = Some n.
Proof.
  intros H. apply normalizeTask_Some in H
    as (trimmed & Ht & Hname & Hdesc & Hlogs & Hms & Hrun & Harch & Hcr
        & Hup & Hchk & Hst).
  destruct (normalized_name _ _ Ht) as (s & Hs & Htrim & Hne).
  rewrite Hs in Hname.
  unfold normalizeTask.
  rewrite (get_lookup _ _ _ Hname), (get_lookup _ _ _ Hdesc),
    (get_lookup _ _ _ Hlogs), (get_lookup _ _ _ Hms),
    (get_lookup _ _ _ Harch), (get_lookup _ _ _ Hcr),
    (get_lookup _ _ _ Hup), (get_lookup _ _ _ Hchk).
  simpl. rewrite Htrim.
  assert (orElse (VStr s) (VStr "Untitled item") = VStr s) as ->.
  { unfold orElse. simpl. apply eqb_empty_false in Hne. by rewrite Hne. }
  rewrite orElse_idem by done.
  rewrite coalesce_idem, array_or_idem.
  rewrite !finite_or_idem by (by rewrite ?finite_or_idem).
  f_equal.
  rewrite (insert_id _ _ _ Hname), (insert_id _ _ _ Hdesc),
    (insert_id _ _ _ Hlogs), (insert_id _ _ _ Hms), (insert_id _ _ _ Hrun).
  replace (truthy (VBool (truthy (get raw "isArchived"))))
    with (truthy (get raw "isArchived")) by done.
  rewrite (insert_id _ _ _ Harch), (insert_id _ _ _ Hcr),
    (insert_id _ _ _ Hup), (insert_id _ _ _ Hchk).
  by apply delete_id.
Qed.

End NormalizerFixpoint.

Section Restore.

Implicit Types (raw n : gmap string value) (now : Z)
  (records : list (gmap string value)).

Lemma normalizeTask_readable now raw :
  readableName (get raw "name") → is_Some (normalizeTask now raw).
Proof.
  intros [trimmed Ht]%optionalTrim_readable.
  unfold normalizeTask. rewrite Ht. simpl. eauto.
Qed.

Lemma normalizeTask_idle now raw n : normalizeTask now raw = Some n → idle n.
Proof.
  intros H. apply normalizeTask_Some in H
    as (? & _ & _ & _ & _ & _ & Hrun & _ & _ & _ & _ & Hst).
  by split.
Qed.

Lemma normalizeFrom_idle clock i records :
  Forall (λ r, readableName (get r "name")) records →
  ∃ ns, normalizeFrom clock i records = Some ns
        ∧ length ns = length records ∧ Forall idle ns.
Proof.
  intros H. revert i.
  induction H as [|r rest Hr _ IH]; intros i; simpl.
  - by exists [].
  - destruct (normalizeTask_readable (clock i) r Hr) as [n Hn].
    destruct (IH (S i)) as (ns & Hns & Hlen & Hidle).
    exists (n :: ns). rewrite Hn, Hns. simpl.
    repeat split; [by rewrite Hlen|].
    constructor; [by eapply normalizeTask_idle|done].
Qed.

Lemma taskToJson_name t : get (taskToJson t) "name" = VStr (Task.name t).
Proof. unfold taskToJson. by destruct (Task.startedAt t). Qed.

Lemma persist_readable s :
  Forall (λ r, readableName (get r "name")) (persist s).
Proof.
  unfold persist. apply Forall_fmap, Forall_forall. intros t _. simpl.
  by rewrite taskToJson_name.
Qed.

Lemma seededTasks_readable existing bootstrap :
  (∀ records, existing = Some records →
              Forall (λ r, readableName (get r "name")) records) →
  Forall (λ r, readableName (get r "name")) bootstrap →
  Forall (λ r, readableName (get r "name")) (seededTasks existing bootstrap).
Proof.
  intros He Hb. destruct existing as [[|r rest]|]; simpl; try done.
  by apply He.
Qed.

End Restore.

(** C3 (as amended).  For every raw stored record whose [name] is
    absent, [null] or a string, also one whose saved payload has
    [isRunning = true] and a [startedAt] value, [normalizeTask]
    returns a task with [isRunning = false] and no [startedAt]
    property; its name is ["Untitled item"] when the stored name is
    missing or empty after trimming and the trimmed name otherwise;
    its [logs] are the stored array, or the empty array when [logs]
    is absent or not an array; its [elapsedMs] is the stored number,
    or [0] when that is not a finite number.  Hence every task that
    [bootstrapApp] installs from such records is not running, and so
    is every task it installs from a payload that [persist] wrote,
    whatever sessions were running when it was written. *)
Theorem normalizeTask_restores_idle :
  (∀ (now : Z) (raw : gmap string value),
     readableName (get raw "name") →
     ∃ n, normalizeTask now raw = Some n
        ∧ n !! "isRunning" = Some (VBool false)
        ∧ n !! "startedAt" = None
        ∧ (∀ s, get raw "name" = VStr s → trim s = EmptyString →
                n !! "name" = Some (VStr "Untitled item"))
        ∧ (∀ s, get raw "name" = VStr s → trim s ≠ EmptyString →
                n !! "name" = Some (VStr (trim s)))
        ∧ (get raw "name" = VUndefined ∨ get raw "name" = VNull →
           n !! "name" = Some (VStr "Untitled item"))
        ∧ n !! "logs"
          = Some (if isArray (get raw "logs") then get raw "logs"
                  else VArr [])
        ∧ n !! "elapsedMs"
          = Some (if isFinite (get raw "elapsedMs") then get raw "elapsedMs"
                  else VNum (Finite 0)))
  ∧ (∀ (clock : nat → Z) existing bootstrap,
       Forall (λ r, readableName (get r "name"))
              (seededTasks existing bootstrap) →
       ∃ ns, bootstrapTasks clock existing bootstrap = Some ns
             ∧ length ns = length (seededTasks existing bootstrap)
             ∧ Forall idle ns)
  ∧ (∀ (clock : nat → Z) (s : State) bootstrap,
       Forall (λ r, readableName (get r "name")) bootstrap →
       ∃ ns, bootstrapTasks clock (Some (persist s)) bootstrap = Some ns
             ∧ Forall idle ns).
Proof.
  split; [|split].
  - intros now raw Hname.
    destruct (normalizeTask_readable now raw Hname) as [n Hn].
    exists n. split; [done|].
    apply normalizeTask_Some in Hn
      as (trimmed & Ht & Hn & _ & Hlogs & Hms & Hrun & _ & _ & _ & _ & Hst).
    repeat split; try done.
    + intros s Hs Hempty. rewrite Hs in Ht. injection Ht as <-.
      rewrite Hn. unfold orElse. simpl. by rewrite Hempty.
    + intros s Hs Hink. rewrite Hs in Ht. injection Ht as <-.
      rewrite Hn. unfold orElse. simpl.
      apply eqb_empty_false in Hink. by rewrite Hink.
    + intros [Hu|Hu]; rewrite Hu in Ht; injection Ht as <-; by rewrite Hn.
  - intros clock existing bootstrap Hr. by apply normalizeFrom_idle.
  - intros clock s bootstrap Hb. unfold bootstrapTasks.
    destruct (normalizeFrom_idle clock 0
                (seededTasks (Some (persist s)) bootstrap))
      as (ns & Hns & _ & Hidle).
    + apply seededTasks_readable; [|done].
      intros ? [= <-]. apply persist_readable.
    + by exists ns.
Qed.

Lemma normalizeTask_restores_idle_witness :
  readableName (get runningRecord "name")
  ∧ (∃ n, normalizeTask 7 runningRecord = Some n
          ∧ n !! "isRunning" = Some (VBool false)
          ∧ n !! "startedAt" = None
          ∧ n !! "name" = Some (VStr "Untitled item")
          ∧ n !! "logs" = Some (VArr [])
          ∧ n !! "elapsedMs" = Some (VNum (Finite 0)))
  ∧ (∃ task, findTask "t1" (tasks runningState) = Some task
             ∧ Task.isRunning task = true
             ∧ Task.startedAt task = Some 10)
  ∧ (∃ ns, bootstrapTasks (λ _, 9) (Some (persist runningState)) [] = Some ns
           ∧ Forall idle ns).
Proof.
  destruct normalizeTask_restores_idle as (Hone & _ & Hsaved).
  destruct (Hone 7 runningRecord I)
    as (n & Hn & Hrun & Hst & Hempty & _ & _ & Hlogs & Hms).
  split; [exact I|].
  split; [exists n; repeat split; try assumption; by apply (Hempty "  ")|].
  split; [eexists; repeat split; reflexivity|].
  apply Hsaved. constructor.
Defined.

(** C3 (as stated) fails on a stored record whose name is a number:
    the optional call [task.name?.trim()] finds no [trim] to call and
    [normalizeTask] throws, so that no task is returned. *)
Lemma normalizeTask_throws_on_numeric_name :
  normalizeTask 7 numericName = None
  ∧ ¬ (∃ n, normalizeTask 7 numericName = Some n
            ∧ n !! "isRunning" = Some (VBool false)).
Proof. split; [done|]. by intros (n & Hn & _). Qed.

Example normalizeTask_twice :
  ∃ n, normalizeTask 7 runningRecord = Some n ∧ normalizeTask 9 n = Some n.
Proof.
  eexists. split; [reflexivity|].
  by eapply (normalizeTask_fixpoint 7 9 runningRecord).
Qed.

(** C9.  [normalizeTask] is idempotent: on every raw record,
    normalizing the normalized record gives the normalized record
    again, whatever the clock reads at the second call. *)
Theorem normalizeTask_idempotent (now1 now2 : Z) (raw : gmap string value) :
  normalizeTask now1 raw ≫= normalizeTask now2 = normalizeTask now1 raw.
Proof.
  destruct (normalizeTask now1 raw) as [n|] eqn:E; simpl; [|done].
  by eapply normalizeTask_fixpoint.
Qed.

(** ** The duplicate detector *)

Section Tally.

Variable key : gmap string value → string.

Implicit Types (counts : gmap string nat) (k : string)
  (tasks : list (gmap string value)).

Lemma elem_of_repeated counts k :
  k ∈ repeated counts ↔ (1 < default 0 (counts !! k))%nat.
Proof.
  unfold repeated. rewrite elem_of_list_to_set, list_elem_of_fmap. split.
  - intros ([k' c] & -> & Hin).
    apply list_elem_of_filter in Hin as [Hc Hin].
    apply elem_of_map_to_list in Hin. simpl in *. by rewrite Hin.
  - intros H. destruct (counts !! k) as [c|] eqn:E; simpl in H; [|lia].
    exists (k, c). split; [done|].
    apply list_elem_of_filter. split; [done|].
    by apply elem_of_map_to_list.
Qed.

Lemma bump_count counts key' k :
  default 0%nat (bump counts key' !! k)
  = (default 0 (counts !! k)
     + if decide (key' = k ∧ k ≠ EmptyString) then 1 else 0)%nat.
Proof.
  unfold bump. destruct (String.eqb key' EmptyString) eqn:E.
  - apply String.eqb_eq in E. case_decide as Hd; [|lia].
    destruct Hd. congruence.
  - apply String.eqb_neq in E.
    destruct (decide (key' = k)) as [->|Hne].
    + rewrite lookup_insert_eq. simpl. case_decide as Hd; [done|].
      by destruct Hd.
    + rewrite lookup_insert_ne by done. case_decide as Hd; [|lia].
      by destruct Hd.
Qed.

Lemma tally_count tasks counts k :
  default 0%nat (foldl (λ m task, bump m (key task)) counts tasks !! k)
  = (default 0 (counts !! k)
     + if decide (k = EmptyString) then 0
       else length (filter (λ task, key task = k) tasks))%nat.
Proof.
  revert counts.
  induction tasks as [|task tasks IH]; intros counts; simpl.
  - case_decide; lia.
  - rewrite IH, bump_count, filter_cons.
    repeat case_decide; simpl; first [lia | exfalso; tauto].
Qed.

Lemma repeated_tally tasks k :
  k ∈ repeated (foldl (λ m task, bump m (key task)) ∅ tasks)
  ↔ k ≠ EmptyString
    ∧ (2 ≤ length (filter (λ task, key task = k) tasks))%nat.
Proof.
  rewrite elem_of_repeated, tally_count, lookup_empty. simpl.
  case_decide as Hd; [split; [lia|by intros [? _]]|].
  split; [|lia]. intros Hk. split; [done|lia].
Qed.

End Tally.

Lemma nameKey_keyed task k :
  k ≠ EmptyString → nameKey task = k ↔ keyed "name" k task.
Proof.
  intros Hk. unfold nameKey, keyed.
  destruct (get task "name") as [| | | |s| |];
    try (split; [by intros <-|by intros (s' & ? & _)]).
  split; [intros <-; by exists s|by intros (s' & [= <-] & ?)].
Qed.

Lemma referenceKey_keyed task k :
  k ≠ EmptyString → referenceKey task = k ↔ keyed "reference" k task.
Proof.
  intros Hk. unfold referenceKey, keyed.
  destruct (get task "reference") as [| | | |s| |];
    try (split; [by intros <-|by intros (s' & ? & _)]).
  split; [intros <-; by exists s|by intros (s' & [= <-] & ?)].
Qed.

(** C6.  For every snapshot of tasks, archived or not, a key is in the
    duplicate-names set of [calculateDuplicates] exactly when it is
    not empty and is the trimmed, lower-cased name of at least two
    tasks; the same holds of the references.  With tasks named
    [Alpha], [alpha ] and [Beta], the second of them archived, the
    key [alpha] of the first two is in the set of names and the key
    [beta] is not. *)
Theorem calculateDuplicates_spec :
  (∀ tasks k,
     k ∈ names (calculateDuplicates tasks)
     ↔ k ≠ EmptyString ∧ (2 ≤ occurrences "name" k tasks)%nat)
  ∧ (∀ tasks k,
     k ∈ references (calculateDuplicates tasks)
     ↔ k ≠ EmptyString ∧ (2 ≤ occurrences "reference" k tasks)%nat)
  ∧ (keyed "name" "alpha" alpha ∧ keyed "name" "alpha" alphaArchived
     ∧ keyed "name" "beta" beta
     ∧ ("alpha" ∈ names (calculateDuplicates [alpha; alphaArchived; beta]))
     ∧ ("beta" ∉ names (calculateDuplicates [alpha; alphaArchived; beta]))
     ∧ ("beta" ∉ names (calculateDuplicates [beta]))).
Proof.
  assert (∀ tasks k,
            k ∈ names (calculateDuplicates tasks)
            ↔ k ≠ EmptyString ∧ (2 ≤ occurrences "name" k tasks)%nat)
    as Hnames.
  { intros tasks k. unfold occurrences. simpl. rewrite repeated_tally.
    split; intros [Hk Hn]; (split; [done|]).
    - by rewrite <- (list_filter_iff _ _ tasks (λ t, nameKey_keyed t k Hk)).
    - by rewrite (list_filter_iff _ _ tasks (λ t, nameKey_keyed t k Hk)). }
  split; [exact Hnames|]. split.
  - intros tasks k. unfold occurrences. simpl. rewrite repeated_tally.
    split; intros [Hk Hn]; (split; [done|]).
    + by rewrite <- (list_filter_iff _ _ tasks
                       (λ t, referenceKey_keyed t k Hk)).
    + by rewrite (list_filter_iff _ _ tasks
                    (λ t, referenceKey_keyed t k Hk)).
  - split; [by exists "Alpha"|]. split; [by exists "alpha "|].
    split; [by exists "Beta"|]. split; [|split].
    + apply Hnames. split; [discriminate|]. vm_compute. lia.
    + intros [_ Hn]%Hnames. vm_compute in Hn. lia.
    + intros [_ Hn]%Hnames. vm_compute in Hn. lia.
Qed.

(** ** The task store *)

Section Store.

Implicit Types (id : string) (f : Task.t → Task.t) (ts : list Task.t).

Lemma findTask_id id ts t : findTask id ts = Some t → Task.id t = id.
Proof.
  induction ts as [|u ts IH]; simpl; [done|].
  case_decide; [|done]. by intros [= <-].
Qed.

Lemma mutateTask_absent id f ts : findTask id ts = None → mutateTask id f ts = ts.
Proof.
  induction ts as [|u ts IH]; simpl; [done|].
  case_decide; [done|]. intros Hts. by rewrite IH.
Qed.

Lemma findTask_mutateTask id f ts :
  (∀ t, Task.id (f t) = Task.id t) →
  findTask id (mutateTask id f ts) = f <$> findTask id ts.
Proof.
  intros Hf. induction ts as [|u ts IH]; simpl; [done|].
  case_decide as Hu; simpl.
  - rewrite Hf. by rewrite decide_True.
  - by rewrite decide_False.
Qed.

Lemma findTask_mutateTask_ne id id' f ts :
  (∀ t, Task.id (f t) = Task.id t) → id' ≠ id →
  findTask id' (mutateTask id f ts) = findTask id' ts.
Proof.
  intros Hf Hne. induction ts as [|u ts IH]; simpl; [done|].
  case_decide as Hu; simpl.
  - rewrite Hf. subst id. by rewrite !decide_False.
  - by rewrite IH.
Qed.

End Store.

(** ** Starting a timer *)

(** C8.  [startTimer(id)] returns the state as it is, [lastUpdatedMs]
    included, when no task has the id or the task is running or
    archived.  Otherwise the task is running afterwards, its
    [startedAt] is the first clock reading and its [lastUpdatedMs]
    the second; nothing else of the task changes, and no other task
    does. *)
Theorem startTimer_spec (id : string) (now1 now2 : Z) (s : State) :
  (findTask id (tasks s) = None → startTimer id now1 now2 s = s)
  ∧ (∀ task, findTask id (tasks s) = Some task →
       Task.isRunning task = true ∨ Task.isArchived task = true →
       startTimer id now1 now2 s = s)
  ∧ (∀ task, findTask id (tasks s) = Some task →
       Task.isRunning task = false → Task.isArchived task = false →
       ∃ task',
         findTask id (tasks (startTimer id now1 now2 s)) = Some task'
         ∧ Task.isRunning task' = true
         ∧ Task.startedAt task' = Some now1
         ∧ Task.lastUpdatedMs task' = now2
         ∧ task' = Task.set_lastUpdatedMs now2
                     (Task.set_startedAt (Some now1)
                        (Task.set_isRunning true task))
         ∧ ∀ id', id' ≠ id →
             findTask id' (tasks (startTimer id now1 now2 s))
             = findTask id' (tasks s)).
Proof.
  unfold startTimer. repeat split.
  - by intros ->.
  - intros task -> [-> | ->]; [done|]. by rewrite orb_true_r.
  - intros task Hfind Hrun Harch. rewrite Hfind, Hrun, Harch. simpl.
    eexists. rewrite findTask_mutateTask, Hfind by done. simpl.
    repeat split. intros id' Hne. by apply findTask_mutateTask_ne.
Qed.

Lemma startTimer_spec_witness :
  findTask "t1" (tasks sampleState) = Some sampleTask
  ∧ Task.isRunning sampleTask = false ∧ Task.isArchived sampleTask = false
  ∧ (∃ task',
       findTask "t1" (tasks (startTimer "t1" 10 11 sampleState)) = Some task'
       ∧ Task.isRunning task' = true
       ∧ Task.startedAt task' = Some 10
       ∧ Task.lastUpdatedMs task' = 11)
  ∧ findTask "t2" (tasks sampleState) = None
  ∧ startTimer "t2" 10 11 sampleState = sampleState.
Proof.
  destruct (startTimer_spec "t1" 10 11 sampleState) as (_ & _ & Hstart).
  destruct (Hstart sampleTask eq_refl eq_refl eq_refl)
    as (task' & Hfind & Hrun & Hat & Hup & _).
  destruct (startTimer_spec "t2" 10 11 sampleState) as (Hnone & _).
  split; [reflexivity|]. split; [reflexivity|]. split; [reflexivity|].
  split; [exists task'; repeat split; assumption|].
  split; [reflexivity|]. exact (Hnone eq_refl).
Defined.

(** ** Discarding and confirming a pending session *)

(** C4.  When a session is pending and its task is in the store,
    discarding it leaves the task's [elapsedMs] and [logs] as they
    were, whatever the pending duration is, sets the task's [lastLog]
    to the discard marker and clears the pending session; no other
    task is touched. *)
Theorem discardLog_spec (now : Z) (s : State) (pending : Pending.t)
    (task : Task.t) :
  pendingLog s = Some pending →
  findTask (Pending.id pending) (tasks s) = Some task →
  ∃ task',
    findTask (Pending.id pending) (tasks (discardLog now s)) = Some task'
    ∧ Task.elapsedMs task' = Task.elapsedMs task
    ∧ Task.logs task' = Task.logs task
    ∧ Task.lastLog task' = Some "Discarded session"
    ∧ pendingLog (discardLog now s) = None
    ∧ ∀ id', id' ≠ Pending.id pending →
        findTask id' (tasks (discardLog now s)) = findTask id' (tasks s).
Proof.
  intros Hp Hfind. unfold discardLog. rewrite Hp. simpl.
  eexists. rewrite findTask_mutateTask, Hfind by done. simpl.
  repeat split. intros id' Hne. by apply findTask_mutateTask_ne.
Qed.

Lemma discardLog_spec_witness :
  pendingLog pendingState = Some (Pending.mk "t1" (Finite 600000))
  ∧ ∃ task task',
      findTask "t1" (tasks pendingState) = Some task
      ∧ findTask "t1" (tasks (discardLog 700000 pendingState)) = Some task'
      ∧ Task.elapsedMs task' = Task.elapsedMs task
      ∧ Task.logs task' = Task.logs task
      ∧ Task.lastLog task' = Some "Discarded session"
      ∧ pendingLog (discardLog 700000 pendingState) = None.
Proof.
  split; [reflexivity|].
  destruct (discardLog_spec 700000 pendingState _ _ eq_refl eq_refl)
    as (task' & Hfind & Hms & Hlogs & Hlast & Hp & _).
  eexists _, task'. split; [reflexivity|]. repeat split; assumption.
Defined.

(** C10.  When a session is pending but no task of the store has its
    id, submitting the log form with a comment that is not blank
    changes no task and leaves the pending session in place:
    [finalizeLog] returns before it touches the state. *)
Theorem submitLog_orphan (text today : string) (now : Z) (s : State)
    (pending : Pending.t) :
  pendingLog s = Some pending →
  findTask (Pending.id pending) (tasks s) = None →
  trim text ≠ EmptyString →
  finalizeLog (trim text) today now s = s
  ∧ tasks (submitLog text today now s) = tasks s
  ∧ pendingLog (submitLog text today now s) = Some pending.
Proof.
  intros Hp Hfind Htext%eqb_empty_false.
  assert (finalizeLog (trim text) today now s = s) as Hfin.
  { unfold finalizeLog. by rewrite Hp, Hfind. }
  split; [done|]. unfold submitLog. rewrite Hp, Htext, Hfin. by simpl.
Qed.

Lemma submitLog_orphan_witness :
  pendingLog orphanState = Some (Pending.mk "t1" (Finite 600000))
  ∧ findTask "t1" (tasks orphanState) = None
  ∧ trim "done" ≠ EmptyString
  ∧ finalizeLog (trim "done") "1/1/2024" 700000 orphanState = orphanState
  ∧ tasks (submitLog "done" "1/1/2024" 700000 orphanState) = tasks orphanState
  ∧ pendingLog (submitLog "done" "1/1/2024" 700000 orphanState)
    = Some (Pending.mk "t1" (Finite 600000)).
Proof.
  split; [reflexivity|]. split; [reflexivity|]. split; [discriminate|].
  apply (submitLog_orphan "done" "1/1/2024" 700000 orphanState
           (Pending.mk "t1" (Finite 600000)));
    [reflexivity|reflexivity|discriminate].
Defined.

(** C2 (as amended).  In every state with a pending session,
    submitting the log form with an empty or blank comment is refused
    with the warning that a comment is required, and leaves every
    task, so the task's [elapsedMs] and [logs], and the pending
    session as they were.  With a comment that is not blank, and the
    task of the pending session in the store, it puts an entry with
    the trimmed comment at the front of the task's [logs] and clears
    the pending session. *)
Theorem submitLog_spec (text today : string) (now : Z) (s : State)
    (pending : Pending.t) :
  pendingLog s = Some pending →
  (trim text = EmptyString →
     tasks (submitLog text today now s) = tasks s
     ∧ pendingLog (submitLog text today now s) = Some pending
     ∧ logWarning (submitLog text today now s) = commentRequired)
  ∧ (trim text ≠ EmptyString →
     ∀ task, findTask (Pending.id pending) (tasks s) = Some task →
     ∃ task',
       findTask (Pending.id pending) (tasks (submitLog text today now s))
       = Some task'
       ∧ Task.logs task'
         = Log.mk today (formatDuration (Pending.duration pending))
                  (trim text) now :: Task.logs task
       ∧ pendingLog (submitLog text today now s) = None).
Proof.
  intros Hp. unfold submitLog. rewrite Hp. split.
  - intros ->. by simpl.
  - intros Htext%eqb_empty_false task Hfind. rewrite Htext.
    unfold finalizeLog. rewrite Hp, Hfind. simpl.
    eexists. rewrite findTask_mutateTask, Hfind by done. simpl. done.
Qed.

Lemma submitLog_spec_witness :
  pendingLog pendingState = Some (Pending.mk "t1" (Finite 600000))
  ∧ trim "   " = EmptyString
  ∧ tasks (submitLog "   " "1/1/2024" 700000 pendingState) = tasks pendingState
  ∧ pendingLog (submitLog "   " "1/1/2024" 700000 pendingState)
    = Some (Pending.mk "t1" (Finite 600000))
  ∧ trim " done " ≠ EmptyString
  ∧ ∃ task task',
      findTask "t1" (tasks pendingState) = Some task
      ∧ findTask "t1" (tasks (submitLog " done " "1/1/2024" 700000 pendingState))
        = Some task'
      ∧ Task.logs task'
        = Log.mk "1/1/2024" "00:10:00" "done" 700000 :: Task.logs task
      ∧ pendingLog (submitLog " done " "1/1/2024" 700000 pendingState) = None.
Proof.
  destruct (submitLog_spec "   " "1/1/2024" 700000 pendingState _ eq_refl)
    as [Hblank _].
  destruct (Hblank eq_refl) as (Htasks & Hp & _).
  destruct (submitLog_spec " done " "1/1/2024" 700000 pendingState _ eq_refl)
    as [_ Hdone].
  destruct (Hdone ltac:(discriminate) _ eq_refl) as (task' & Hfind & Hlogs & Hp').
  split; [reflexivity|]. split; [reflexivity|]. split; [assumption|].
  split; [assumption|]. split; [discriminate|].
  eexists _, task'. split; [reflexivity|]. repeat split; assumption.
Defined.

(** C2 (as stated) fails where the task of the pending session has
    been deleted: a comment that is not blank then neither adds a log
    entry nor clears the pending session. *)
Lemma submitLog_keeps_orphan_pending :
  pendingLog orphanState = Some (Pending.mk "t1" (Finite 600000))
  ∧ trim "done" ≠ EmptyString
  ∧ pendingLog (submitLog "done" "1/1/2024" 700000 orphanState) ≠ None
  ∧ tasks (submitLog "done" "1/1/2024" 700000 orphanState) = [].
Proof. repeat split; discriminate. Qed.

(** ** Committed time *)

Section Sessions.

Implicit Types (id : string) (s : State) (x : Session) (xs ys : list Session).

Lemma add_Finite_Finite a (d e : Z) :
  add (add a (Finite d)) (Finite e) = add a (Finite (d + e)).
Proof. destruct a as [z| |p]; simpl; [|done..]. f_equal. lia. Qed.

Lemma add_zero a : add a (Finite 0) = a.
Proof. destruct a as [z| |p]; simpl; [|done..]. f_equal. lia. Qed.

Lemma totalMs_Permutation xs ys : xs ≡ₚ ys → totalMs xs = totalMs ys.
Proof.
  unfold totalMs.
  induction 1 as [|x xs ys _ IH|x y xs|xs ys zs _ IH1 _ IH2]; simpl; lia.
Qed.

(** One confirmation adds the pending duration to the task. *)
Lemma submitLog_elapsedMs text today now s pending task :
  pendingLog s = Some pending →
  findTask (Pending.id pending) (tasks s) = Some task →
  trim text ≠ EmptyString →
  ∃ task',
    findTask (Pending.id pending) (tasks (submitLog text today now s))
    = Some task'
    ∧ Task.elapsedMs task'
      = add (Task.elapsedMs task) (Pending.duration pending)
    ∧ Task.isRunning task' = Task.isRunning task
    ∧ Task.isArchived task' = Task.isArchived task.
Proof.
  intros Hp Hfind Htext%eqb_empty_false.
  unfold submitLog. rewrite Hp, Htext.
  unfold finalizeLog. rewrite Hp, Hfind. simpl.
  eexists. rewrite findTask_mutateTask, Hfind by done. simpl. done.
Qed.

(** One whole session adds the time between its start and its stop. *)
Lemma runSession_elapsedMs id s x task :
  findTask id (tasks s) = Some task →
  Task.isRunning task = false → Task.isArchived task = false →
  trim (text x) ≠ EmptyString →
  ∃ task',
    findTask id (tasks (runSession id s x)) = Some task'
    ∧ Task.elapsedMs task'
      = add (Task.elapsedMs task) (Finite (sessionMs x))
    ∧ Task.isRunning task' = false
    ∧ Task.isArchived task' = false.
Proof.
  intros Hfind Hrun Harch Htext. unfold runSession.
  pose proof (findTask_id _ _ _ Hfind) as Hid.
  set (s1 := startTimer id (startedRead x) (startedStamp x) s).
  assert (∃ t1, findTask id (tasks s1) = Some t1
                ∧ Task.isRunning t1 = true
                ∧ Task.startedAt t1 = Some (startedRead x)
                ∧ Task.elapsedMs t1 = Task.elapsedMs task
                ∧ Task.isArchived t1 = false ∧ Task.id t1 = id)
    as (t1 & Hfind1 & Hrun1 & Hat1 & Hms1 & Harch1 & Hid1).
  { unfold s1, startTimer. rewrite Hfind, Hrun, Harch. simpl.
    eexists. rewrite findTask_mutateTask, Hfind by done. simpl. done. }
  set (s2 := stopTimer id (stoppedRead x) (stoppedStamp x) s1).
  assert (pendingLog s2 = Some (Pending.mk id (Finite (sessionMs x)))
          ∧ ∃ t2, findTask id (tasks s2) = Some t2
                  ∧ Task.isRunning t2 = false
                  ∧ Task.elapsedMs t2 = Task.elapsedMs task
                  ∧ Task.isArchived t2 = false)
    as (Hp2 & t2 & Hfind2 & Hrun2 & Hms2 & Harch2).
  { unfold s2, stopTimer. rewrite Hfind1, Hrun1. simpl.
    rewrite Hat1, Hid1. split; [done|].
    eexists. rewrite findTask_mutateTask, Hfind1 by done. simpl. done. }
  destruct (submitLog_elapsedMs (text x) (today x) (confirmedRead x) s2 _ t2
              Hp2 Hfind2 Htext)
    as (t3 & Hfind3 & Hms3 & Hrun3 & Harch3).
  exists t3. simpl in *. split; [done|].
  by rewrite Hms3, Hms2, Hrun3, Harch3.
Qed.

Lemma runSessions_elapsedMs id xs s task :
  findTask id (tasks s) = Some task →
  Task.isRunning task = false → Task.isArchived task = false →
  Forall (λ x, trim (text x) ≠ EmptyString) xs →
  ∃ task',
    findTask id (tasks (runSessions id xs s)) = Some task'
    ∧ Task.elapsedMs task'
      = add (Task.elapsedMs task) (Finite (totalMs xs)).
Proof.
  intros Hfind Hrun Harch Hxs. revert s task Hfind Hrun Harch.
  induction Hxs as [|x xs Hx _ IH]; intros s task Hfind Hrun Harch.
  - exists task. simpl. by rewrite add_zero.
  - destruct (runSession_elapsedMs id s x task Hfind Hrun Harch Hx)
      as (t1 & Hfind1 & Hms1 & Hrun1 & Harch1).
    destruct (IH _ _ Hfind1 Hrun1 Harch1) as (t2 & Hfind2 & Hms2).
    exists t2. split; [done|].
    rewrite Hms2, Hms1, add_Finite_Finite. done.
Qed.

(** *** Arbitrary runs *)

Lemma add_assoc a b c : add (add a b) c = add a (add b c).
Proof.
  destruct a as [x| |[]], b as [y| |[]], c as [z| |[]]; simpl; try done.
  f_equal. lia.
Qed.

Lemma add_comm a b : add a b = add b a.
Proof.
  destruct a as [x| |[]], b as [y| |[]]; simpl; try done. f_equal. lia.
Qed.

Lemma add_zero_l a : add (Finite 0) a = a.
Proof. by rewrite add_comm, add_zero. Qed.

Lemma total_app ds ds' : total (ds ++ ds') = add (total ds) (total ds').
Proof.
  induction ds as [|d ds IH].
  - symmetry. apply add_zero_l.
  - change (add d (total (ds ++ ds')) = add (add d (total ds)) (total ds')).
    by rewrite IH, add_assoc.
Qed.

Lemma total_Permutation ds ds' : ds ≡ₚ ds' → total ds = total ds'.
Proof.
  induction 1 as [|d ds ds' _ IH|d d' ds|ds ds' ds'' _ IH1 _ IH2].
  - done.
  - change (add d (total ds) = add d (total ds')). by rewrite IH.
  - change (add d' (add d (total ds)) = add d (add d' (total ds))).
    by rewrite <- !add_assoc, (add_comm d d').
  - congruence.
Qed.

Lemma findTask_mutateTask_cases id id' f ts task :
  (∀ t, Task.id (f t) = Task.id t) →
  findTask id ts = Some task →
  findTask id (mutateTask id' f ts)
  = Some (if decide (id = id') then f task else task).
Proof.
  intros Hf Hfind. case_decide as Hid.
  - subst id'. by rewrite findTask_mutateTask, Hfind.
  - by rewrite findTask_mutateTask_ne.
Qed.

Lemma findTask_removeTask_ne id id' ts :
  id ≠ id' → findTask id (removeTask id' ts) = findTask id ts.
Proof.
  intros Hne. induction ts as [|u ts IH]; simpl; [done|].
  case_decide as Hu; simpl.
  - subst id'. by rewrite decide_False.
  - by rewrite IH.
Qed.

(** What one handler does to the [elapsedMs] of a task it keeps. *)
Lemma handle_elapsedMs id e s task :
  findTask id (tasks s) = Some task → keeps id e →
  ∃ task',
    findTask id (tasks (handle e s)) = Some task'
    ∧ Task.elapsedMs task'
      = add (Task.elapsedMs task) (total (commitments id [e] s)).
Proof.
  intros Hfind Hkeeps.
  assert (∃ task', findTask id (tasks s) = Some task'
                   ∧ Task.elapsedMs task' = add (Task.elapsedMs task) (Finite 0))
    as Hsame by (exists task; by rewrite add_zero).
  destruct e; simpl in *.
  - unfold submitTask. repeat case_match; simpl; try done.
    all: by rewrite decide_False.
  - unfold startTimer. repeat case_match; simpl; try done.
    eexists. split; [by apply findTask_mutateTask_cases|].
    case_decide; simpl; by rewrite add_zero.
  - unfold stopTimer. repeat case_match; simpl; try done.
    eexists. split; [by apply findTask_mutateTask_cases|].
    case_decide; simpl; by rewrite add_zero.
  - unfold submitLog, finalizeLog.
    destruct (pendingLog s) as [pending|] eqn:Hp; simpl; [|done].
    destruct (String.eqb (trim text0) EmptyString) eqn:Htext; simpl.
    { apply String.eqb_eq in Htext. rewrite decide_False; [done|].
      by intros [_ ?]. }
    apply String.eqb_neq in Htext.
    destruct (findTask (Pending.id pending) (tasks s)) as [found|] eqn:Hf;
      simpl.
    + eexists. split; [by apply findTask_mutateTask_cases|].
      destruct (decide (id = Pending.id pending)) as [->|Hne]; simpl.
      * rewrite decide_True by done. simpl. by rewrite add_zero.
      * rewrite decide_False; [by rewrite add_zero|]. by intros [? _].
    + rewrite decide_False; [done|]. intros [Hid _]. congruence.
  - unfold discardLog. repeat case_match; simpl; try done.
    eexists. split; [by apply findTask_mutateTask_cases|].
    case_decide; simpl; by rewrite add_zero.
  - unfold markChecked. repeat case_match; simpl; try done.
    eexists. split; [by apply findTask_mutateTask_cases|].
    case_decide; simpl; by rewrite add_zero.
  - unfold archiveTask. repeat case_match; simpl; try done.
    eexists. split; [by apply findTask_mutateTask_cases|].
    case_decide; simpl; by rewrite add_zero.
  - unfold deleteTask. repeat case_match; simpl; try done.
    by rewrite findTask_removeTask_ne.
Qed.

Lemma commitments_cons id e es s :
  commitments id (e :: es) s
  = commitments id [e] s ++ commitments id es (handle e s).
Proof. simpl. by rewrite app_nil_r. Qed.

Lemma run_elapsedMs id es s task :
  findTask id (tasks s) = Some task → Forall (keeps id) es →
  ∃ task',
    findTask id (tasks (run es s)) = Some task'
    ∧ Task.elapsedMs task'
      = add (Task.elapsedMs task) (total (commitments id es s)).
Proof.
  intros Hfind Hes. revert s task Hfind.
  induction Hes as [|e es He _ IH]; intros s task Hfind.
  - exists task. simpl. by rewrite add_zero.
  - destruct (handle_elapsedMs id e s task Hfind He) as (t1 & Hfind1 & Hms1).
    destruct (IH _ _ Hfind1) as (t2 & Hfind2 & Hms2).
    exists t2. split; [done|].
    by rewrite Hms2, Hms1, (commitments_cons id e es s), total_app, add_assoc.
Qed.

End Sessions.

(** C1.  Each confirmation adds exactly the pending duration to the
    task's [elapsedMs].  After any sequence of confirmed sessions of a
    task, the task's [elapsedMs] is its initial value plus the sum of
    the sessions' durations, and the same for the sessions taken in
    any other order.  More generally, after any run of the handlers
    that neither deletes the task nor creates one with its id, the
    task's [elapsedMs] is its initial value plus the sum of the
    durations that were confirmed for it, taken in any order. *)
Theorem elapsedMs_additive :
  (∀ text today now s pending task,
     pendingLog s = Some pending →
     findTask (Pending.id pending) (tasks s) = Some task →
     trim text ≠ EmptyString →
     ∃ task',
       findTask (Pending.id pending) (tasks (submitLog text today now s))
       = Some task'
       ∧ Task.elapsedMs task'
         = add (Task.elapsedMs task) (Pending.duration pending))
  ∧ (∀ id s task xs,
     findTask id (tasks s) = Some task →
     Task.isRunning task = false → Task.isArchived task = false →
     Forall (λ x, trim (text x) ≠ EmptyString) xs →
     (∃ task',
        findTask id (tasks (runSessions id xs s)) = Some task'
        ∧ Task.elapsedMs task'
          = add (Task.elapsedMs task) (Finite (totalMs xs))
        ∧ ∀ e, Task.elapsedMs task = Finite e →
               Task.elapsedMs task' = Finite (e + totalMs xs))
     ∧ ∀ ys, ys ≡ₚ xs →
         ∃ task',
           findTask id (tasks (runSessions id ys s)) = Some task'
           ∧ Task.elapsedMs task'
             = add (Task.elapsedMs task) (Finite (totalMs xs)))
  ∧ (∀ id es s task,
     findTask id (tasks s) = Some task → Forall (keeps id) es →
     ∃ task',
       findTask id (tasks (run es s)) = Some task'
       ∧ ∀ ds, ds ≡ₚ commitments id es s →
               Task.elapsedMs task' = add (Task.elapsedMs task) (total ds)).
Proof.
  split; [|split].
  - intros text today now s pending task Hp Hfind Htext.
    destruct (submitLog_elapsedMs text today now s pending task Hp Hfind Htext)
      as (task' & Hfind' & Hms & _).
    by exists task'.
  - intros id s task xs Hfind Hrun Harch Hxs. split.
    + destruct (runSessions_elapsedMs id xs s task Hfind Hrun Harch Hxs)
        as (task' & Hfind' & Hms).
      exists task'. repeat split; [done..|].
      intros e He. by rewrite Hms, He.
    + intros ys Hperm.
      rewrite <- (totalMs_Permutation _ _ Hperm).
      apply runSessions_elapsedMs; [done..|].
      by rewrite Hperm.
  - intros id es s task Hfind Hes.
    destruct (run_elapsedMs id es s task Hfind Hes) as (task' & Hfind' & Hms).
    exists task'. split; [done|].
    intros ds Hds. by rewrite (total_Permutation _ _ Hds).
Qed.

Lemma elapsedMs_additive_witness :
  pendingLog pendingState = Some (Pending.mk "t1" (Finite 600000))
  ∧ (∃ task task',
       findTask "t1" (tasks pendingState) = Some task
       ∧ findTask "t1" (tasks (submitLog "done" "1/1/2024" 700000 pendingState))
         = Some task'
       ∧ Task.elapsedMs task' = add (Task.elapsedMs task) (Finite 600000))
  ∧ findTask "t1" (tasks sampleState) = Some sampleTask
  ∧ Task.elapsedMs sampleTask = Finite 1000
  ∧ (∃ task',
       findTask "t1" (tasks (runSessions "t1" [morning; evening] sampleState))
       = Some task'
       ∧ Task.elapsedMs task' = Finite 901000)
  ∧ (∃ task',
       findTask "t1" (tasks (runSessions "t1" [evening; morning] sampleState))
       = Some task'
       ∧ Task.elapsedMs task' = Finite 901000)
  ∧ findTask "t1" (tasks twoTasks) = Some sampleTask
  ∧ Forall (keeps "t1") busyDay
  ∧ commitments "t1" busyDay twoTasks = [Finite 600000; Finite 300000]
  ∧ (∃ task',
       findTask "t1" (tasks (run busyDay twoTasks)) = Some task'
       ∧ Task.elapsedMs task' = Finite 901000).
Proof.
  destruct elapsedMs_additive as (Hone & Hmany & Hrun).
  assert (Forall (keeps "t1") busyDay) as Hkeeps
    by (repeat constructor).
  destruct (Hrun "t1" busyDay twoTasks sampleTask eq_refl Hkeeps)
    as (t4 & Hfind4 & Hms4).
  destruct (Hone "done" "1/1/2024" 700000 pendingState _ _ eq_refl eq_refl
              ltac:(discriminate))
    as (t1 & Hfind1 & Hms1).
  destruct (Hmany "t1" sampleState sampleTask [morning; evening]
              eq_refl eq_refl eq_refl
              ltac:(repeat constructor; discriminate))
    as [(t2 & Hfind2 & Hms2 & _) Hperm].
  destruct (Hperm [evening; morning] (perm_swap _ _ _))
    as (t3 & Hfind3 & Hms3).
  split; [reflexivity|].
  split; [eexists _, t1; split; [reflexivity|split; assumption]|].
  split; [reflexivity|]. split; [reflexivity|].
  split; [exists t2; split; assumption|].
  split; [exists t3; split; assumption|].
  split; [reflexivity|]. split; [exact Hkeeps|]. split; [reflexivity|].
  exists t4. split; [assumption|].
  exact (Hms4 [Finite 300000; Finite 600000] (perm_swap _ _ _)).
Defined.

(** ** Stopping a timer *)

Section Clock.

Implicit Types (clock : Z) (s : State) (ts : list Task.t) (t : Task.t).

Lemma ticks_le clock rs clock' : ticks clock rs clock' → clock ≤ clock'.
Proof.
  revert clock. induction rs as [|r rs IH]; simpl; intros clock.
  - intros ->. lia.
  - intros [Hr Hrs%IH]. lia.
Qed.

Lemma clocked_mono clock clock' t :
  clock ≤ clock' → clocked clock t → clocked clock' t.
Proof.
  intros Hle Ht Hrun. destruct (Ht Hrun) as (t0 & Hat & Ht0).
  exists t0. split; [done|lia].
Qed.

Lemma findTask_elem id ts t : findTask id ts = Some t → t ∈ ts.
Proof.
  induction ts as [|u ts IH]; simpl; [done|].
  case_decide.
  - intros [= <-]. by left.
  - intros Hts. right. by apply IH.
Qed.

Lemma Forall_mutateTask (P : Task.t → Prop) id f ts :
  (∀ t, P t → P (f t)) → Forall P ts → Forall P (mutateTask id f ts).
Proof.
  intros Hf. induction 1 as [|u ts Hu Hts IH]; simpl; [done|].
  case_decide; constructor; auto.
Qed.

Lemma Forall_removeTask (P : Task.t → Prop) id ts :
  Forall P ts → Forall P (removeTask id ts).
Proof.
  induction 1 as [|u ts Hu Hts IH]; simpl; [done|].
  case_decide; [done|]. by constructor.
Qed.

Lemma restored_clocked clock t : restored t → clocked clock t.
Proof. intros [Hrun _] Hrun'. congruence. Qed.

(** Every handler keeps the running tasks on the clock. *)
Lemma handle_clocked clock clock' e s :
  ticks clock (readings e) clock' →
  Forall (clocked clock) (tasks s) →
  Forall (clocked clock') (tasks (handle e s)).
Proof.
  intros Hticks Hs.
  pose proof (ticks_le _ _ _ Hticks) as Hle.
  assert (Forall (clocked clock') (tasks s)) as Hs'.
  { eapply Forall_impl; [done|]. intros t. by apply clocked_mono. }
  destruct e; simpl in *.
  - unfold submitTask. repeat case_match; simpl; try done;
      (constructor; [by intros ?|done]).
  - unfold startTimer. repeat case_match; simpl; try done.
    apply Forall_mutateTask; [|done].
    intros task _ _. simpl. exists now1. split; [done|].
    destruct Hticks as (_ & ? & ->). done.
  - unfold stopTimer. repeat case_match; simpl; try done.
    apply Forall_mutateTask; [|done]. by intros task _ ?.
  - unfold submitLog, finalizeLog. repeat case_match; simpl; try done.
    apply Forall_mutateTask; [|done]. intros task Htask. exact Htask.
  - unfold discardLog. repeat case_match; simpl; try done.
    apply Forall_mutateTask; [|done]. by intros task _ ?.
  - unfold markChecked. repeat case_match; simpl; try done.
    apply Forall_mutateTask; [|done]. intros task Htask. exact Htask.
  - unfold archiveTask. repeat case_match; simpl; try done.
    apply Forall_mutateTask; [|done]. intros task Htask. exact Htask.
  - unfold deleteTask. repeat case_match; simpl; try done.
    by apply Forall_removeTask.
Qed.

Lemma reachable_clocked clock s :
  reachable clock s → Forall (clocked clock) (tasks s).
Proof.
  induction 1 as [clock ts warning Hts|clock s e clock' _ IH Hticks].
  - simpl. eapply Forall_impl; [done|]. intros t. apply restored_clocked.
  - by eapply handle_clocked.
Qed.

(** Every handler keeps a [startedAt] on the running tasks, whatever
    the clock reads. *)
Lemma handle_started e s :
  Forall started (tasks s) → Forall started (tasks (handle e s)).
Proof.
  intros Hs. destruct e; simpl.
  - unfold submitTask. repeat case_match; simpl; try done;
      (constructor; [by intros ?|done]).
  - unfold startTimer. repeat case_match; simpl; try done.
    apply Forall_mutateTask; [|done].
    intros task _ _. simpl. by exists now1.
  - unfold stopTimer. repeat case_match; simpl; try done.
    apply Forall_mutateTask; [|done]. by intros task _ ?.
  - unfold submitLog, finalizeLog. repeat case_match; simpl; try done.
    apply Forall_mutateTask; [|done]. intros task Htask. exact Htask.
  - unfold discardLog. repeat case_match; simpl; try done.
    apply Forall_mutateTask; [|done]. by intros task _ ?.
  - unfold markChecked. repeat case_match; simpl; try done.
    apply Forall_mutateTask; [|done]. intros task Htask. exact Htask.
  - unfold archiveTask. repeat case_match; simpl; try done.
    apply Forall_mutateTask; [|done]. intros task Htask. exact Htask.
  - unfold deleteTask. repeat case_match; simpl; try done.
    by apply Forall_removeTask.
Qed.

Lemma reached_started s : reached s → Forall started (tasks s).
Proof.
  induction 1 as [ts warning Hts|s e _ IH].
  - simpl. eapply Forall_impl; [done|].
    intros t [Hrun _] Hrun'. congruence.
  - by apply handle_started.
Qed.

(** The states reached on a clock that does not run backwards are
    among the states reached. *)
Lemma reachable_reached clock s : reachable clock s → reached s.
Proof.
  induction 1 as [clock ts warning Hts|clock s e clock' _ IH _].
  - by constructor.
  - by constructor.
Qed.

End Clock.

(** C7.  In every state the engine reaches, whatever the clock read
    on the way, [stopTimer(id)] on a task without a [startedAt]
    returns the state as it is; and whenever [stopTimer] does change
    the state, the task had a [startedAt] and the pending session it
    leaves has a finite duration: the reading of the clock less that
    [startedAt].  The duration is not negative where the state was
    reached on a clock that does not run backwards and the reading is
    not before that clock. *)
Theorem stopTimer_safe (s : State) (id : string) (now1 now2 : Z) :
  reached s →
  (∀ task, findTask id (tasks s) = Some task →
           Task.startedAt task = None → stopTimer id now1 now2 s = s)
  ∧ (stopTimer id now1 now2 s = s
     ∨ ∃ task t0,
         findTask id (tasks s) = Some task
         ∧ Task.startedAt task = Some t0
         ∧ pendingLog (stopTimer id now1 now2 s)
           = Some (Pending.mk id (Finite (now1 - t0)))
         ∧ ∀ clock, reachable clock s → clock ≤ now1 → 0 ≤ now1 - t0).
Proof.
  intros Hreach%reached_started.
  assert (∀ task, findTask id (tasks s) = Some task →
                  Task.isRunning task = true →
                  ∃ t0, Task.startedAt task = Some t0) as Hinv.
  { intros task Hfind%findTask_elem.
    rewrite Forall_forall in Hreach. by apply Hreach. }
  unfold stopTimer. split.
  - intros task Hfind Hat. rewrite Hfind.
    destruct (Task.isRunning task) eqn:Hrun; [|done].
    destruct (Hinv task Hfind Hrun) as (t0 & Ht0). congruence.
  - destruct (findTask id (tasks s)) as [task|] eqn:Hfind; [|by left].
    destruct (Task.isRunning task) eqn:Hrun; [|by left].
    destruct (Hinv task eq_refl Hrun) as (t0 & Ht0).
    right. exists task, t0. simpl. rewrite Ht0. simpl.
    rewrite (findTask_id _ _ _ Hfind).
    split; [done|]. split; [done|]. split; [done|].
    intros clock Hclock%reachable_clocked Hnow.
    rewrite Forall_forall in Hclock.
    destruct (Hclock task (findTask_elem _ _ _ Hfind) Hrun)
      as (t1 & Ht1 & Hle).
    assert (t1 = t0) as -> by congruence. lia.
Qed.

Lemma stopTimer_safe_witness :
  reached runningState
  ∧ (stopTimer "t1" 600010 600011 runningState = runningState
     ∨ ∃ task t0,
         findTask "t1" (tasks runningState) = Some task
         ∧ Task.startedAt task = Some t0
         ∧ pendingLog (stopTimer "t1" 600010 600011 runningState)
           = Some (Pending.mk "t1" (Finite (600010 - t0)))
         ∧ ∀ clock, reachable clock runningState → clock ≤ 600010 →
                    0 ≤ 600010 - t0)
  ∧ reachable 11 runningState
  ∧ reached sampleState
  ∧ findTask "t1" (tasks sampleState) = Some sampleTask
  ∧ Task.startedAt sampleTask = None
  ∧ stopTimer "t1" 20 21 sampleState = sampleState.
Proof.
  assert (reached sampleState) as Hsample.
  { apply reached_bootstrap. repeat constructor. }
  assert (reached runningState) as Hrunning.
  { exact (reached_handle sampleState (StartTimer "t1" 10 11) Hsample). }
  split; [exact Hrunning|].
  split;
    [exact (proj2 (stopTimer_safe runningState "t1" 600010 600011
                     Hrunning))|].
  split.
  { apply (reach_handle 5 sampleState (StartTimer "t1" 10 11) 11).
    - apply reach_bootstrap. repeat constructor.
    - simpl. lia. }
  split; [exact Hsample|].
  split; [reflexivity|]. split; [reflexivity|].
  exact (proj1 (stopTimer_safe sampleState "t1" 20 21 Hsample)
           sampleTask eq_refl eq_refl).
Defined.

(** C7 (as stated) fails where the clock is set back during a
    session: the state is reached on a clock that has not run
    backwards, the task is running with its [startedAt], and
    [stopTimer], reading the clock before that [startedAt], leaves a
    pending session with a negative duration. *)
Lemma stopTimer_negative_duration :
  reachable 1001 lateStart
  ∧ (∃ task, findTask "t1" (tasks lateStart) = Some task
             ∧ Task.isRunning task = true
             ∧ Task.startedAt task = Some 1000)
  ∧ pendingLog setBack = Some (Pending.mk "t1" (Finite (-100)))
  ∧ formatDuration (Finite (-100)) = "-1:-1:-1".
Proof.
  split.
  { apply (reach_handle 5 sampleState (StartTimer "t1" 1000 1001) 1001).
    - apply reach_bootstrap. repeat constructor.
    - simpl. lia. }
  split; [eexists; repeat split; reflexivity|].
  split; reflexivity.
Qed.

(** ** The CSV export *)

Section Csv.

Lemma readDoubled_doubleQuotes v : readDoubled (doubleQuotes v) = Some v.
Proof.
  induction v as [|c v IH]; simpl; [done|].
  destruct (Ascii.eqb c dquote) eqn:E.
  - apply Ascii.eqb_eq in E as ->.
    change (readDoubled (String dquote (String dquote (doubleQuotes v))))
      with (String dquote <$> readDoubled (doubleQuotes v)).
    by rewrite IH.
  - simpl. rewrite E, IH. done.
Qed.

Lemma csv_rows (task : Task.t) (logs : list Log.t) :
  (λ row, join "," (quoteField <$> row))
    <$> ((λ log, [Task.name task; Log.date log; Log.duration log;
                  Log.comment log]) <$> logs)
  = csvRow task <$> logs.
Proof. rewrite <- list_fmap_compose. by apply list_fmap_ext. Qed.

End Csv.

(** C5 (as amended).  [exportTask] only alerts, and writes nothing,
    when the task has no log entry.  Otherwise it writes the header
    row, whose four titles are double-quoted like every other field,
    followed by one row per log entry in the order of the task's
    [logs], most recent first; a field is written between double
    quotes with each of its double quotes written twice, so that it
    can be read back; the rows are joined by line feeds.  For the task
    [Task A] with the one log of the example, these are the two lines
    of the example with the header titles quoted. *)
Theorem exportTask_spec (task : Task.t) :
  (Task.logs task = [] → exportTask task = None)
  ∧ (Task.logs task ≠ [] →
     exportTask task
     = Some (join (String newline EmptyString)
               (csvHeader :: (csvRow task <$> Task.logs task))))
  ∧ (∀ v, ∃ body, quoteField v = quoted body ∧ readDoubled body = Some v)
  ∧ csvHeader
    = quoted "Name" +:+ "," +:+ quoted "Date" +:+ ","
      +:+ quoted "Time Spent" +:+ "," +:+ quoted "Comment"
  ∧ exportTask taskA = Some quotedHeaderCsv.
Proof.
  split; [|split; [|split; [|split]]].
  - unfold exportTask. by intros ->.
  - unfold exportTask. destruct (Task.logs task) as [|log logs] eqn:E; [done|].
    intros _. rewrite fmap_cons, csv_rows. done.
  - intros v. exists (doubleQuotes v). split; [done|].
    apply readDoubled_doubleQuotes.
  - reflexivity.
  - reflexivity.
Qed.

Lemma exportTask_spec_witness :
  Task.logs sampleTask = [] ∧ exportTask sampleTask = None
  ∧ Task.logs taskA ≠ []
  ∧ exportTask taskA
    = Some (join (String newline EmptyString)
              (csvHeader :: (csvRow taskA <$> Task.logs taskA))).
Proof.
  destruct (exportTask_spec sampleTask) as (Hnone & _).
  destruct (exportTask_spec taskA) as (_ & Hsome & _).
  split; [reflexivity|]. split; [exact (Hnone eq_refl)|].
  split; [discriminate|]. apply Hsome. discriminate.
Defined.

(** C5 (as stated) fails on the example: the header row that
    [exportTask] writes is quoted field by field, and is not the bare
    row [Name,Date,Time Spent,Comment] of the specification. *)
Lemma exportTask_quotes_header :
  exportTask taskA = Some quotedHeaderCsv
  ∧ exportTask taskA ≠ Some bareHeaderCsv.
Proof. split; [reflexivity|discriminate]. Qed.

(** * Further properties *)

(** ** The reference counter *)

Section Digits.

Implicit Types (x acc : N) (s : string) (c : ascii).

Lemma digitValue_char x : (x < 10)%N → digitValue (pretty_N_char x) = Some x.
Proof.
  intros Hx.
  assert (x = 0 ∨ x = 1 ∨ x = 2 ∨ x = 3 ∨ x = 4 ∨ x = 5 ∨ x = 6 ∨ x = 7
          ∨ x = 8 ∨ x = 9)%N as Hcases by lia.
  repeat destruct Hcases as [->|Hcases]; try reflexivity. by subst.
Qed.

(** A digit is neither white space nor a sign. *)
Lemma digitValue_plain c d :
  digitValue c = Some d →
  isWhiteSpace c = false ∧ Ascii.eqb c "-" = false ∧ Ascii.eqb c "+" = false.
Proof.
  destruct c as [[] [] [] [] [] [] [] []]; vm_compute; intros; by simplify_eq.
Qed.

(** Reading the digits that [pretty] wrote. *)
Lemma readDigits_pretty_go x :
  ∃ k : N, ∀ acc s,
    readDigits acc (pretty_N_go x s) = readDigits (acc * 10 ^ k + x) s.
Proof.
  induction (N.lt_wf_0 x) as [x _ IH].
  destruct (decide (x = 0)%N) as [->|Hx].
  - exists 0%N. intros acc s. rewrite pretty_N_go_0. f_equal. lia.
  - destruct (IH (x `div` 10)%N) as [k Hk]; [apply N.div_lt; lia|].
    exists (k + 1)%N. intros acc s.
    rewrite pretty_N_go_step by lia. rewrite Hk. simpl.
    rewrite digitValue_char by (apply N.mod_lt; lia).
    f_equal. rewrite N.pow_add_r.
    pose proof (N.div_mod x 10 ltac:(lia)). lia.
Qed.

(** What [pretty] writes for a positive number begins with a digit. *)
Lemma pretty_go_head x s :
  (0 < x)%N →
  ∃ c rest d, pretty_N_go x s = String c rest ∧ digitValue c = Some d.
Proof.
  revert s. induction (N.lt_wf_0 x) as [x _ IH]. intros s Hx.
  rewrite pretty_N_go_step by done.
  destruct (decide (x `div` 10 = 0)%N) as [->|Hq].
  - rewrite pretty_N_go_0. eexists _, _, _. split; [done|].
    apply digitValue_char, N.mod_lt. lia.
  - apply IH; [apply N.div_lt; lia|].
    destruct (x `div` 10)%N; [done|lia].
Qed.

Lemma pretty_N_head x :
  ∃ c rest d, pretty x = String c rest ∧ digitValue c = Some d.
Proof.
  unfold pretty, pretty_N. case_decide as Hx.
  - by exists "0"%char, EmptyString, 0%N.
  - apply pretty_go_head. lia.
Qed.

Lemma readDigits_pretty_N x : readDigits 0 (pretty x) = x.
Proof.
  unfold pretty, pretty_N. case_decide as Hx; [by subst|].
  destruct (readDigits_pretty_go x) as [k Hk]. rewrite Hk. simpl. lia.
Qed.

Lemma readDigits_zeros n s : readDigits 0 (zeros n +:+ s) = readDigits 0 s.
Proof. induction n as [|n IH]; simpl; [done|]. exact IH. Qed.

(** [parseInt] on a text that begins with a digit. *)
Lemma parseInt_digits c rest d :
  digitValue c = Some d →
  parseInt (String c rest) = Finite (Z.of_N (readDigits 0 (String c rest))).
Proof.
  intros Hd. destruct (digitValue_plain _ _ Hd) as (Hw & Hm & Hp).
  unfold parseInt. cbn [trimStart]. rewrite Hw, Hm, Hp, Hd. done.
Qed.

(** [parseInt] reads back a number that is not negative, also behind
    zeros. *)
Lemma parseInt_zeros_pretty n (z : Z) :
  0 ≤ z → parseInt (zeros n +:+ pretty z) = Finite z.
Proof.
  intros Hz.
  assert (pretty z = pretty (Z.to_N z)) as ->.
  { destruct z as [|p|p]; [done|done|lia]. }
  assert (∃ c rest d, zeros n +:+ pretty (Z.to_N z) = String c rest
                      ∧ digitValue c = Some d)
    as (c & rest & d & Hc & Hd).
  { destruct n as [|n]; simpl; [apply pretty_N_head|].
    by exists "0"%char, (zeros n +:+ pretty (Z.to_N z)), 0%N. }
  pose proof (readDigits_zeros n (pretty (Z.to_N z))) as Hread.
  rewrite readDigits_pretty_N, Hc in Hread.
  rewrite Hc, (parseInt_digits _ _ _ Hd), Hread. f_equal. lia.
Qed.

Lemma parseInt_pretty (z : Z) : 0 ≤ z → parseInt (pretty z) = Finite z.
Proof. apply (parseInt_zeros_pretty 0). Qed.

Lemma parseInt_padStart w (z : Z) :
  0 ≤ z → parseInt (padStart w (pretty z)) = Finite z.
Proof. apply parseInt_zeros_pretty. Qed.

End Digits.

Section CounterFacts.

Lemma length_zeros_app n s :
  String.length (zeros n +:+ s) = (n + String.length s)%nat.
Proof. induction n as [|n IH]; simpl; [done|]. by rewrite IH. Qed.

Lemma length_padStart w s :
  String.length (padStart w s) = (w `max` String.length s)%nat.
Proof. unfold padStart. rewrite length_zeros_app. lia. Qed.

Lemma pretty_not_empty (z : Z) : 0 ≤ z → String.eqb (pretty z) EmptyString = false.
Proof.
  intros Hz.
  assert (pretty z = pretty (Z.to_N z)) as ->.
  { destruct z as [|p|p]; [done|done|lia]. }
  destruct (pretty_N_head (Z.to_N z)) as (c & rest & d & -> & _). done.
Qed.

(** A call on a slot that holds a count. *)
Lemma nextTaskCode_pretty (n : Z) :
  0 ≤ n →
  nextTaskCode (Some (pretty n))
  = (padStart 3 (pretty (n + 1)), Some (pretty (n + 1))).
Proof.
  intros Hn. unfold nextTaskCode.
  by rewrite pretty_not_empty, parseInt_pretty.
Qed.

Lemma slotAfter_absent k :
  slotAfter (S k) None = Some (pretty (Z.of_nat (S k))).
Proof.
  induction k as [|k IH]; [done|].
  change (slotAfter (S (S k)) None)
    with (nextTaskCode (slotAfter (S k) None)).2.
  rewrite IH, nextTaskCode_pretty by lia. simpl. do 2 f_equal. lia.
Qed.

Lemma nextTaskCode_nth k :
  (nextTaskCode (slotAfter k None)).1 = padStart 3 (pretty (Z.of_nat k + 1)).
Proof.
  destruct k as [|k]; [done|].
  rewrite slotAfter_absent, nextTaskCode_pretty by lia. done.
Qed.

End CounterFacts.

(** X1.  From a counter slot that is absent, the calls of
    [nextTaskCode] give the codes of 1, 2, 3, ... in turn: the call
    after [k] earlier ones returns [k + 1] in decimal, padded with
    zeros to three characters and longer only from 1000 on; it reads
    back as [k + 1], so that no two calls return the same code.  An
    empty slot counts like an absent one. *)
Theorem nextTaskCode_numbering :
  (∀ k : nat,
     (nextTaskCode (slotAfter k None)).1
     = padStart 3 (pretty (Z.of_nat k + 1))
     ∧ parseInt (nextTaskCode (slotAfter k None)).1 = Finite (Z.of_nat k + 1)
     ∧ (Z.of_nat k + 1 < 1000 →
        String.length (nextTaskCode (slotAfter k None)).1 = 3%nat)
     ∧ (nextTaskCode (slotAfter k None)).2
       = Some (pretty (Z.of_nat k + 1)))
  ∧ (∀ j k : nat,
       (nextTaskCode (slotAfter j None)).1
       = (nextTaskCode (slotAfter k None)).1 → j = k)
  ∧ nextTaskCode (Some EmptyString) = nextTaskCode None.
Proof.
  assert (∀ k : nat,
            parseInt (nextTaskCode (slotAfter k None)).1
            = Finite (Z.of_nat k + 1)) as Hread.
  { intros k. rewrite nextTaskCode_nth. apply parseInt_padStart. lia. }
  split; [|split; [|done]].
  - intros k. split; [apply nextTaskCode_nth|]. split; [apply Hread|]. split.
    + intros Hk. rewrite nextTaskCode_nth, length_padStart.
      assert (String.length (pretty (Z.of_nat k + 1)%Z) ≤ 3)%nat; [|lia].
      assert (∀ n, (n < 1000)%nat →
                   (String.length (pretty (Z.of_nat n)) ≤ 3)%nat) as Hsmall.
      { intros n Hn.
        assert (Forall (λ n, (String.length (pretty (Z.of_nat n)) ≤ 3)%nat)
                       (seq 0 1000)) as Hall.
        { apply Forall_forall. intros m Hm.
          apply (bool_decide_unpack _).
          revert m Hm. apply Forall_forall.
          apply (bool_decide_unpack _). vm_compute. reflexivity. }
        rewrite Forall_forall in Hall. apply Hall, elem_of_seq. lia. }
      replace (Z.of_nat k + 1) with (Z.of_nat (S k)) by lia.
      apply Hsmall. lia.
    + destruct k as [|k]; [done|].
      by rewrite slotAfter_absent, nextTaskCode_pretty by lia.
  - intros j k Hjk.
    pose proof (Hread j) as Hj. rewrite Hjk, Hread in Hj.
    injection Hj. lia.
Qed.

(** X2.  Once the counter slot holds a text that [parseInt] cannot
    read, every call of [nextTaskCode] returns the code [NaN], and the
    slot holds [NaN] from the first call on. *)
Theorem nextTaskCode_stuck (raw : string) (k : nat) :
  raw ≠ EmptyString → parseInt raw = NaN →
  (nextTaskCode (slotAfter k (Some raw))).1 = "NaN"
  ∧ slotAfter (S k) (Some raw) = Some "NaN".
Proof.
  intros Hraw%String.eqb_neq Hparse.
  assert (nextTaskCode (Some raw) = ("NaN", Some "NaN")) as Hfirst.
  { unfold nextTaskCode. by rewrite Hraw, Hparse. }
  assert (∀ k, slotAfter (S k) (Some raw) = Some "NaN") as Hslot.
  { intros n. induction n as [|n IH].
    - change (slotAfter 1 (Some raw)) with (nextTaskCode (Some raw)).2.
      by rewrite Hfirst.
    - change (slotAfter (S (S n)) (Some raw))
        with (nextTaskCode (slotAfter (S n) (Some raw))).2.
      by rewrite IH. }
  split; [|apply Hslot].
  destruct k as [|k]; [|by rewrite Hslot].
  change (slotAfter 0 (Some raw)) with (Some raw). by rewrite Hfirst.
Qed.

Lemma nextTaskCode_stuck_witness :
  "x12" ≠ EmptyString ∧ parseInt "x12" = NaN
  ∧ (nextTaskCode (slotAfter 3 (Some "x12"))).1 = "NaN"
  ∧ slotAfter 4 (Some "x12") = Some "NaN".
Proof.
  split; [discriminate|]. split; [reflexivity|].
  apply (nextTaskCode_stuck "x12" 3); [discriminate|reflexivity].
Defined.

(** ** Durations as text *)

Section Durations.

Lemma padStart2_padStart s : padStart2 s = padStart 2 s.
Proof. by destruct s as [|c [|d r]]. Qed.

Lemma pretty_short (n : nat) :
  (n < 100)%nat → (String.length (pretty (Z.of_nat n)) ≤ 2)%nat.
Proof.
  intros Hn.
  assert (Forall (λ n, (String.length (pretty (Z.of_nat n)) ≤ 2)%nat)
                 (seq 0 100)) as Hall.
  { apply (bool_decide_unpack _). vm_compute. reflexivity. }
  rewrite Forall_forall in Hall. apply Hall, elem_of_seq. lia.
Qed.

(** A count below one hundred fills exactly its two places and reads
    back. *)
Lemma two_places (z : Z) :
  0 ≤ z < 100 →
  String.length (padStart 2 (pretty z)) = 2%nat
  ∧ parseInt (padStart 2 (pretty z)) = Finite z.
Proof.
  intros Hz. split; [|apply parseInt_padStart; lia].
  rewrite length_padStart.
  pose proof (pretty_short (Z.to_nat z) ltac:(lia)) as Hlen.
  rewrite Z2Nat.id in Hlen by lia. lia.
Qed.

End Durations.

(** X3.  For a duration that is not negative, [formatDuration] writes
    hours, minutes and seconds between colons: the minutes and the
    seconds take two characters each and are below sixty, the hours
    take at least two, and the three read back to the whole seconds
    of the duration. *)
Theorem formatDuration_reads_back (ms : Z) :
  0 ≤ ms →
  ∃ hh mm ss h m s,
    formatDuration (Finite ms) = hh +:+ ":" +:+ mm +:+ ":" +:+ ss
    ∧ (2 ≤ String.length hh)%nat
    ∧ String.length mm = 2%nat ∧ String.length ss = 2%nat
    ∧ parseInt hh = Finite h ∧ parseInt mm = Finite m
    ∧ parseInt ss = Finite s
    ∧ 0 ≤ h ∧ 0 ≤ m < 60 ∧ 0 ≤ s < 60
    ∧ h * 3600 + m * 60 + s = ms `div` 1000.
Proof.
  intros Hms. unfold formatDuration.
  set (ts := ms `div` 1000).
  assert (0 ≤ ts) as Hts by (apply Z.div_pos; lia).
  assert (ts `rem` 3600 = ts `mod` 3600) as Hr1 by (apply Z.rem_mod_nonneg; lia).
  assert (ts `rem` 60 = ts `mod` 60) as Hr2 by (apply Z.rem_mod_nonneg; lia).
  pose proof (Z.mod_pos_bound ts 3600 ltac:(lia)) as Hb1.
  pose proof (Z.mod_pos_bound ts 60 ltac:(lia)) as Hb2.
  pose proof (Z.div_mod ts 3600 ltac:(lia)) as Hd1.
  pose proof (Z.div_mod (ts `mod` 3600) 60 ltac:(lia)) as Hd2.
  assert ((ts `mod` 3600) `mod` 60 = ts `mod` 60) as Hd3.
  { apply Z.mod_mod_divide. by exists 60. }
  assert (0 ≤ ts `div` 3600) as Hh by (apply Z.div_pos; lia).
  assert (0 ≤ (ts `mod` 3600) `div` 60 < 60) as Hm.
  { split; [apply Z.div_pos; lia|]. apply Z.div_lt_upper_bound; lia. }
  rewrite !padStart2_padStart, Hr1, Hr2.
  destruct (two_places ((ts `mod` 3600) `div` 60) ltac:(lia)) as [Hl1 Hp1].
  destruct (two_places (ts `mod` 60) ltac:(lia)) as [Hl2 Hp2].
  eexists _, _, _, _, _, _. split; [reflexivity|].
  split; [rewrite length_padStart; lia|].
  split; [exact Hl1|]. split; [exact Hl2|].
  split; [by apply parseInt_padStart|].
  split; [exact Hp1|]. split; [exact Hp2|].
  split; [done|]. split; [done|]. split; [lia|]. lia.
Qed.

Lemma formatDuration_reads_back_witness :
  0 ≤ 3661000
  ∧ ∃ hh mm ss h m s,
      formatDuration (Finite 3661000) = hh +:+ ":" +:+ mm +:+ ":" +:+ ss
      ∧ (2 ≤ String.length hh)%nat
      ∧ String.length mm = 2%nat ∧ String.length ss = 2%nat
      ∧ parseInt hh = Finite h ∧ parseInt mm = Finite m
      ∧ parseInt ss = Finite s
      ∧ 0 ≤ h ∧ 0 ≤ m < 60 ∧ 0 ≤ s < 60
      ∧ h * 3600 + m * 60 + s = 3661000 `div` 1000.
Proof.
  split; [lia|]. apply formatDuration_reads_back. lia.
Defined.

(** X4.  For a total that is not negative, [formatHours] writes the
    whole hours, then the minutes below sixty on two characters; the
    two read back to the whole minutes of the total. *)
Theorem formatHours_reads_back (ms : Z) :
  0 ≤ ms →
  ∃ hh mm h m,
    formatHours (Finite ms) = hh +:+ "h " +:+ mm +:+ "m"
    ∧ String.length mm = 2%nat
    ∧ parseInt hh = Finite h ∧ parseInt mm = Finite m
    ∧ 0 ≤ h ∧ 0 ≤ m < 60
    ∧ h * 60 + m = ms `div` 60000.
Proof.
  intros Hms. unfold formatHours. change (60 * 1000) with 60000.
  set (tm := ms `div` 60000).
  assert (0 ≤ tm) as Htm by (apply Z.div_pos; lia).
  assert (tm `rem` 60 = tm `mod` 60) as -> by (apply Z.rem_mod_nonneg; lia).
  pose proof (Z.mod_pos_bound tm 60 ltac:(lia)) as Hb.
  pose proof (Z.div_mod tm 60 ltac:(lia)) as Hd.
  assert (0 ≤ tm `div` 60) as Hh by (apply Z.div_pos; lia).
  destruct (two_places (tm `mod` 60) ltac:(lia)) as [Hl Hp].
  eexists _, _, _, _. split; [reflexivity|].
  split; [exact Hl|]. split; [by apply parseInt_pretty|].
  split; [exact Hp|]. split; [done|]. split; [lia|]. lia.
Qed.

Lemma formatHours_reads_back_witness :
  0 ≤ 5400000
  ∧ ∃ hh mm h m,
      formatHours (Finite 5400000) = hh +:+ "h " +:+ mm +:+ "m"
      ∧ String.length mm = 2%nat
      ∧ parseInt hh = Finite h ∧ parseInt mm = Finite m
      ∧ 0 ≤ h ∧ 0 ≤ m < 60
      ∧ h * 60 + m = 5400000 `div` 60000.
Proof.
  split; [lia|]. apply formatHours_reads_back. lia.
Defined.

(** ** The view of the table *)

(** X5.  With a [localeCompare] that is antisymmetric and transitive,
    [sortTasks] is a consistent comparator in each of its modes:
    swapping the two tasks negates the result, and "sorts before or
    with" is transitive.  In the mode [critical] a critical task
    sorts before one that is not; in a mode other than [critical],
    [type] and [name] the later update sorts first. *)
Theorem sortTasks_consistent (localeCompare : string → string → Z)
    (sortBy : string) :
  (∀ x y, localeCompare y x = - localeCompare x y) →
  (∀ x y z, localeCompare x y ≤ 0 → localeCompare y z ≤ 0 →
            localeCompare x z ≤ 0) →
  (∀ a b, sortTasks localeCompare b a sortBy
          = - sortTasks localeCompare a b sortBy)
  ∧ (∀ a b c,
       sortTasks localeCompare a b sortBy ≤ 0 →
       sortTasks localeCompare b c sortBy ≤ 0 →
       sortTasks localeCompare a c sortBy ≤ 0)
  ∧ (sortBy = "critical" → ∀ a b,
       Task.isCritical a = true → Task.isCritical b = false →
       sortTasks localeCompare a b sortBy < 0)
  ∧ (sortBy ≠ "critical" → sortBy ≠ "type" → sortBy ≠ "name" → ∀ a b,
       sortTasks localeCompare a b sortBy
       = Task.lastUpdatedMs b - Task.lastUpdatedMs a).
Proof.
  intros Hanti Htrans.
  assert (∀ x : Z, orNumber x 0 = x) as Hor.
  { intros x. unfold orNumber. destruct (Z.eqb_spec x 0); lia. }
  split; [|split; [|split]].
  - intros a b. unfold sortTasks. rewrite !Hor.
    pose proof (Hanti (Task.type a) (Task.type b)).
    pose proof (Hanti (Task.name a) (Task.name b)).
    unfold orNumber.
    repeat case_match; rewrite ?Z.eqb_eq, ?Z.eqb_neq in *;
      destruct (Task.isCritical a), (Task.isCritical b); simpl in *; lia.
  - intros a b c. unfold sortTasks. rewrite !Hor.
    pose proof (Hanti (Task.type a) (Task.type b)).
    pose proof (Hanti (Task.type b) (Task.type c)).
    pose proof (Hanti (Task.type a) (Task.type c)).
    pose proof (Htrans (Task.type a) (Task.type b) (Task.type c)).
    pose proof (Htrans (Task.type b) (Task.type c) (Task.type a)).
    pose proof (Htrans (Task.type c) (Task.type a) (Task.type b)).
    pose proof (Htrans (Task.type a) (Task.type c) (Task.type b)).
    pose proof (Htrans (Task.type c) (Task.type b) (Task.type a)).
    pose proof (Htrans (Task.type b) (Task.type a) (Task.type c)).
    pose proof (Htrans (Task.name a) (Task.name b) (Task.name c)).
    unfold orNumber.
    repeat case_match; rewrite ?Z.eqb_eq, ?Z.eqb_neq in *;
      destruct (Task.isCritical a), (Task.isCritical b), (Task.isCritical c);
      simpl in *; lia.
  - intros -> a b Ha Hb. unfold sortTasks, orNumber. simpl.
    by rewrite Ha, Hb.
  - intros H1%String.eqb_neq H2%String.eqb_neq H3%String.eqb_neq a b.
    unfold sortTasks. by rewrite H1, H2, H3, !Hor.
Qed.

Lemma sortTasks_consistent_witness :
  (∀ x y, byLength y x = - byLength x y)
  ∧ (∀ x y z, byLength x y ≤ 0 → byLength y z ≤ 0 → byLength x z ≤ 0)
  ∧ sortTasks byLength otherTask sampleTask "critical"
    = - sortTasks byLength sampleTask otherTask "critical"
  ∧ sortTasks byLength sampleTask otherTask "critical" < 0
  ∧ sortTasks byLength sampleTask otherTask "type" > 0
  ∧ sortTasks byLength sampleTask otherTask "recent" = 1.
Proof.
  assert (∀ x y, byLength y x = - byLength x y) as Hanti
    by (intros x y; unfold byLength; lia).
  assert (∀ x y z, byLength x y ≤ 0 → byLength y z ≤ 0 → byLength x z ≤ 0)
    as Htrans by (intros x y z; unfold byLength; lia).
  destruct (sortTasks_consistent byLength "critical" Hanti Htrans)
    as (Hswap & _ & Hcrit & _).
  destruct (sortTasks_consistent byLength "recent" Hanti Htrans)
    as (_ & _ & _ & Hrecent).
  split; [exact Hanti|]. split; [exact Htrans|].
  split; [apply Hswap|]. split; [by apply Hcrit|].
  split; [reflexivity|].
  apply (Hrecent ltac:(discriminate) ltac:(discriminate) ltac:(discriminate)
           sampleTask otherTask).
Defined.

Section Filters.

Implicit Types (ts : list Task.t).

Lemma filtered_all_all_all ts : filtered "all" "all" "all" ts = ts.
Proof.
  unfold filtered. induction ts as [|t ts IH]; [done|].
  rewrite filter_cons_True by done. by rewrite IH.
Qed.

Lemma length_filter_bool (f : Task.t → bool) ts :
  (length (filter (λ t, f t = true) ts) + length (filter (λ t, f t = false) ts)
   = length ts)%nat.
Proof.
  induction ts as [|t ts IH]; [done|].
  rewrite !filter_cons. destruct (f t); repeat case_decide; simpl; try done; lia.
Qed.

(** A view is the view of [all] in one box, filtered by the flag of
    that box. *)
Lemma filtered_refine (f : Task.t → bool) (b : bool) ft fc fa ft' fc' fa' ts :
  (∀ t, matchesFilters ft fc fa t = true
        ↔ f t = b ∧ matchesFilters ft' fc' fa' t = true) →
  filtered ft fc fa ts = filter (λ t, f t = b) (filtered ft' fc' fa' ts).
Proof.
  intros Hiff. unfold filtered. rewrite list_filter_filter.
  apply list_filter_iff. exact Hiff.
Qed.

End Filters.

(** X6.  The filter of the table keeps every task when the three
    boxes say [all].  Whatever the type and criticality boxes say,
    each task of the [all] view is in exactly one of the [archived]
    view and the view of any other value, by its [isArchived]; and
    the same for the criticality box.  A view never holds a task that
    is not in the store, and keeps the store's order. *)
Theorem filtered_views (ft fc fa : string) (ts : list Task.t) :
  filtered "all" "all" "all" ts = ts
  ∧ (∀ other, other ≠ "all" → other ≠ "archived" →
       filtered ft fc "archived" ts
       = filter (λ t, Task.isArchived t = true) (filtered ft fc "all" ts)
       ∧ filtered ft fc other ts
         = filter (λ t, Task.isArchived t = false) (filtered ft fc "all" ts)
       ∧ (length (filtered ft fc "archived" ts)
          + length (filtered ft fc other ts)
          = length (filtered ft fc "all" ts))%nat)
  ∧ (∀ other, other ≠ "all" → other ≠ "critical" →
       filtered ft "critical" fa ts
       = filter (λ t, Task.isCritical t = true) (filtered ft "all" fa ts)
       ∧ filtered ft other fa ts
         = filter (λ t, Task.isCritical t = false) (filtered ft "all" fa ts))
  ∧ filtered ft fc fa ts `sublist_of` ts.
Proof.
  split; [apply filtered_all_all_all|]. split; [|split].
  - intros other H1%String.eqb_neq H2%String.eqb_neq.
    assert (filtered ft fc "archived" ts
            = filter (λ t, Task.isArchived t = true) (filtered ft fc "all" ts))
      as Harch.
    { apply filtered_refine. intros t. unfold matchesFilters. simpl.
      destruct (_ || _), (_ || _), (Task.isArchived t); simpl; intuition congruence. }
    assert (filtered ft fc other ts
            = filter (λ t, Task.isArchived t = false) (filtered ft fc "all" ts))
      as Hother.
    { apply filtered_refine. intros t. unfold matchesFilters. simpl.
      rewrite H1, H2. simpl.
      destruct (_ || _), (_ || _), (Task.isArchived t); simpl; intuition congruence. }
    split; [done|]. split; [done|].
    rewrite Harch, Hother. apply length_filter_bool.
  - intros other H1%String.eqb_neq H2%String.eqb_neq. split.
    + apply filtered_refine. intros t. unfold matchesFilters. simpl.
      destruct (_ || _), (Task.isCritical t), (_ || _); simpl; intuition congruence.
    + apply filtered_refine. intros t. unfold matchesFilters. simpl.
      rewrite H1, H2. simpl.
      destruct (_ || _), (Task.isCritical t), (_ || _); simpl; intuition congruence.
  - unfold filtered. apply sublist_filter.
Qed.

Lemma filtered_views_witness :
  "active" ≠ "all" ∧ "active" ≠ "archived"
  ∧ (length (filtered "all" "all" "archived" [sampleTask; otherTask])
     + length (filtered "all" "all" "active" [sampleTask; otherTask])
     = length (filtered "all" "all" "all" [sampleTask; otherTask]))%nat.
Proof.
  split; [discriminate|]. split; [discriminate|].
  destruct (filtered_views "all" "all" "all" [sampleTask; otherTask])
    as (_ & Harch & _).
  destruct (Harch "active" ltac:(discriminate) ltac:(discriminate))
    as (_ & _ & Hlen).
  exact Hlen.
Defined.

(** ** Archived tasks and the statistics *)

Section Archive.

Implicit Types (id : string) (s : State) (ts : list Task.t) (t : Task.t).




End Archive.



(** X8.  In every state the engine reaches, read on a clock that does
    not run backwards, [currentRunTime] is never negative; it is [0]
    for a task that is not running, and the time since [startedAt]
    for a running task, unless [startedAt] is the instant [0]. *)
Theorem currentRunTime_spec (clock : Z) (s : State) (now : Z) (t : Task.t) :
  reachable clock s → clock ≤ now → t ∈ tasks s →
  0 ≤ currentRunTime now t
  ∧ (Task.isRunning t = false → currentRunTime now t = 0)
  ∧ (Task.isRunning t = true →
     ∃ t0, Task.startedAt t = Some t0
           ∧ currentRunTime now t = if t0 =? 0 then 0 else now - t0).
Proof.
  intros Hreach%reachable_clocked Hnow Ht.
  rewrite Forall_forall in Hreach. specialize (Hreach t Ht).
  unfold currentRunTime.
  destruct (Task.isRunning t) eqn:Hrun; simpl; [|by repeat split].
  destruct (Hreach Hrun) as (t0 & -> & Ht0).
  split; [case_match; lia|]. split; [done|].
  intros _. by exists t0.
Qed.

Lemma currentRunTime_spec_witness :
  reachable 11 runningState ∧ 11 ≤ 700
  ∧ ∃ t, t ∈ tasks runningState
         ∧ Task.isRunning t = true
         ∧ 0 ≤ currentRunTime 700 t
         ∧ ∃ t0, Task.startedAt t = Some t0
                 ∧ currentRunTime 700 t = if t0 =? 0 then 0 else 700 - t0.
Proof.
  assert (reachable 11 runningState) as Hreach.
  { apply (reach_handle 5 sampleState (StartTimer "t1" 10 11) 11).
    - apply reach_bootstrap. repeat constructor.
    - simpl. lia. }
  split; [exact Hreach|]. split; [lia|].
  eexists. split; [apply list_elem_of_here|].
  split; [reflexivity|].
  destruct (currentRunTime_spec 11 runningState 700 _ Hreach ltac:(lia)
              (list_elem_of_here _ _))
    as (Hpos & _ & Hrun).
  split; [exact Hpos|]. exact (Hrun eq_refl).
Defined.

(** ** The handlers of the store *)

Section StoreHandlers.

Implicit Types (id : string) (s : State) (ts : list Task.t) (t : Task.t).

Lemma findTask_removeTask id ts :
  NoDup (Task.id <$> ts) → findTask id (removeTask id ts) = None.
Proof.
  induction ts as [|u ts IH]; simpl; [done|].
  intros [Hu Hts]%NoDup_cons. case_decide as Hid; simpl.
  - subst id. clear IH. induction ts as [|v ts IH]; simpl; [done|].
    simpl in Hu. apply not_elem_of_cons in Hu as [Hne Hu].
    rewrite decide_False by done. apply IH; [done|].
    by apply NoDup_cons in Hts as [_ ?].
  - rewrite decide_False by done. by apply IH.
Qed.

Lemma length_removeTask id ts task :
  findTask id ts = Some task → S (length (removeTask id ts)) = length ts.
Proof.
  induction ts as [|u ts IH]; simpl; [done|].
  case_decide; simpl; [done|]. intros Hfind. by rewrite IH.
Qed.

End StoreHandlers.

(** X9.  [markChecked] on a task of the store sets [lastChecked] to
    the clock's reading and never moves [lastUpdatedMs] back: the new
    value is the larger of the old one and the reading.  Nothing else
    of the task changes, no other task does, and an id that is not in
    the store changes nothing. *)
Theorem markChecked_spec (id : string) (now : Z) (s : State) :
  (findTask id (tasks s) = None → markChecked id now s = s)
  ∧ (∀ task, findTask id (tasks s) = Some task →
       ∃ task',
         findTask id (tasks (markChecked id now s)) = Some task'
         ∧ Task.lastChecked task' = Some now
         ∧ Task.lastUpdatedMs task ≤ Task.lastUpdatedMs task'
         ∧ now ≤ Task.lastUpdatedMs task'
         ∧ task' = Task.set_lastUpdatedMs
                     (Task.lastUpdatedMs task `max` now)
                     (Task.set_lastChecked (Some now) task)
         ∧ ∀ id', id' ≠ id →
             findTask id' (tasks (markChecked id now s))
             = findTask id' (tasks s)).
Proof.
  unfold markChecked. split; [by intros ->|].
  intros task Hfind. rewrite Hfind. simpl.
  eexists. rewrite findTask_mutateTask, Hfind by done. simpl.
  split; [done|]. split; [done|]. simpl.
  split; [lia|]. split; [lia|].
  split; [done|]. intros id' Hne. by apply findTask_mutateTask_ne.
Qed.

Lemma markChecked_spec_witness :
  findTask "t1" (tasks sampleState) = Some sampleTask
  ∧ (∃ task',
       findTask "t1" (tasks (markChecked "t1" 3 sampleState)) = Some task'
       ∧ Task.lastChecked task' = Some 3
       ∧ Task.lastUpdatedMs task' = 5)
  ∧ findTask "t9" (tasks sampleState) = None
  ∧ markChecked "t9" 3 sampleState = sampleState.
Proof.
  destruct (markChecked_spec "t1" 3 sampleState) as [_ Hfound].
  destruct (Hfound sampleTask eq_refl) as (task' & Hfind & Hchk & _ & _ & -> & _).
  destruct (markChecked_spec "t9" 3 sampleState) as [Hnone _].
  split; [reflexivity|].
  split; [eexists; split; [exact Hfind|split; reflexivity]|].
  split; [reflexivity|]. exact (Hnone eq_refl).
Defined.

(** X10.  [archiveTask] refuses a running task and leaves the state
    as it is.  On a task that is not running it flips [isArchived],
    so that archiving and restoring gives the task back with only
    [lastUpdatedMs] changed. *)
Theorem archiveTask_spec (id : string) (now1 now2 : Z) (s : State)
    (task : Task.t) :
  findTask id (tasks s) = Some task →
  (Task.isRunning task = true → archiveTask id now1 s = s)
  ∧ (Task.isRunning task = false →
     findTask id (tasks (archiveTask id now1 s))
     = Some (Task.set_lastUpdatedMs now1
               (Task.set_isArchived (negb (Task.isArchived task)) task))
     ∧ findTask id (tasks (archiveTask id now2 (archiveTask id now1 s)))
       = Some (Task.set_lastUpdatedMs now2 task)
     ∧ ∀ id', id' ≠ id →
         findTask id' (tasks (archiveTask id now1 s))
         = findTask id' (tasks s)).
Proof.
  intros Hfind. split.
  - intros Hrun. unfold archiveTask. by rewrite Hfind, Hrun.
  - intros Hrun.
    assert (findTask id (tasks (archiveTask id now1 s))
            = Some (Task.set_lastUpdatedMs now1
                      (Task.set_isArchived (negb (Task.isArchived task)) task)))
      as Hone.
    { unfold archiveTask. rewrite Hfind, Hrun. simpl.
      by rewrite findTask_mutateTask, Hfind. }
    split; [done|]. split.
    + unfold archiveTask at 1. rewrite Hone. simpl. rewrite Hrun. simpl.
      rewrite findTask_mutateTask, Hone by done. simpl.
      rewrite negb_involutive. by destruct task.
    + intros id' Hne. unfold archiveTask. rewrite Hfind, Hrun. simpl.
      by apply findTask_mutateTask_ne.
Qed.

Lemma archiveTask_spec_witness :
  findTask "t1" (tasks sampleState) = Some sampleTask
  ∧ Task.isRunning sampleTask = false
  ∧ findTask "t1" (tasks (archiveTask "t1" 30 (archiveTask "t1" 20 sampleState)))
    = Some (Task.set_lastUpdatedMs 30 sampleTask)
  ∧ (∃ task, findTask "t1" (tasks runningState) = Some task
             ∧ Task.isRunning task = true)
  ∧ archiveTask "t1" 20 runningState = runningState.
Proof.
  destruct (archiveTask_spec "t1" 20 30 sampleState sampleTask eq_refl)
    as [_ Hidle].
  destruct (Hidle eq_refl) as (_ & Htwice & _).
  destruct (archiveTask_spec "t1" 20 30 runningState _ eq_refl) as [Hrun _].
  split; [reflexivity|]. split; [reflexivity|]. split; [exact Htwice|].
  split; [eexists; split; reflexivity|]. exact (Hrun eq_refl).
Defined.

(** X11.  [deleteTask] leaves the state as it is while the task is
    running or when the operator does not confirm.  Otherwise it takes
    exactly one task out of the store, the first with the id, and the
    id out of the armed timers; the tasks with another id stay, and
    when the ids of the store are distinct the id is no longer
    found. *)
Theorem deleteTask_spec (id : string) (confirmed : bool) (s : State)
    (task : Task.t) :
  findTask id (tasks s) = Some task →
  (Task.isRunning task = true ∨ confirmed = false →
   deleteTask id confirmed s = s)
  ∧ (Task.isRunning task = false → confirmed = true →
     S (length (tasks (deleteTask id confirmed s))) = length (tasks s)
     ∧ (id ∉ timers (deleteTask id confirmed s))
     ∧ (∀ id', id' ≠ id →
          findTask id' (tasks (deleteTask id confirmed s))
          = findTask id' (tasks s))
     ∧ (NoDup (Task.id <$> tasks s) →
        findTask id (tasks (deleteTask id confirmed s)) = None)).
Proof.
  intros Hfind. unfold deleteTask. rewrite Hfind. split.
  - intros [-> | ->]; [done|]. by destruct (Task.isRunning task).
  - intros -> ->. simpl.
    split; [by eapply length_removeTask|].
    split; [intros [_ Hn]%elem_of_difference; by apply Hn, elem_of_singleton|].
    split; [intros id' Hne; by apply findTask_removeTask_ne|].
    apply findTask_removeTask.
Qed.

Lemma deleteTask_spec_witness :
  findTask "t1" (tasks twoTasks) = Some sampleTask
  ∧ Task.isRunning sampleTask = false
  ∧ NoDup (Task.id <$> tasks twoTasks)
  ∧ S (length (tasks (deleteTask "t1" true twoTasks))) = length (tasks twoTasks)
  ∧ findTask "t1" (tasks (deleteTask "t1" true twoTasks)) = None
  ∧ findTask "t2" (tasks (deleteTask "t1" true twoTasks)) = Some otherTask
  ∧ deleteTask "t1" false twoTasks = twoTasks.
Proof.
  assert (NoDup (Task.id <$> tasks twoTasks)) as Hids.
  { simpl. apply NoDup_cons. split; [|apply NoDup_singleton].
    intros Hin%list_elem_of_singleton. discriminate. }
  destruct (deleteTask_spec "t1" true twoTasks sampleTask eq_refl)
    as [_ Hgone].
  destruct (Hgone eq_refl eq_refl) as (Hlen & _ & Hother & Hnone).
  destruct (deleteTask_spec "t1" false twoTasks sampleTask eq_refl)
    as [Hkept _].
  split; [reflexivity|]. split; [reflexivity|]. split; [exact Hids|].
  split; [exact Hlen|]. split; [exact (Hnone Hids)|].
  split; [exact (Hother "t2" ltac:(discriminate))|].
  apply Hkept. by right.
Defined.

(** X12.  The task form adds nothing when the name is blank, or when
    the item is a project and its reference is blank.  Otherwise it
    puts one task at the front of the store: it has the given id, the
    trimmed name, which is never replaced by the fallback name, no
    committed time, no logs and no session, and it is created and
    updated at the clock's reading. *)
Theorem submitTask_spec (uuid itemType name description : string)
    (critical : bool) (reference taskCode : string) (now : Z) (s : State) :
  (trim name = EmptyString →
   submitTask uuid itemType name description critical reference taskCode now s
   = s)
  ∧ (itemType = "project" → trim reference = EmptyString →
     submitTask uuid itemType name description critical reference taskCode
                now s = s)
  ∧ (trim name ≠ EmptyString →
     itemType ≠ "project" ∨ trim reference ≠ EmptyString →
     ∃ task,
       tasks (submitTask uuid itemType name description critical reference
                         taskCode now s) = task :: tasks s
       ∧ Task.id task = uuid ∧ Task.name task = trim name
       ∧ Task.reference task
         = (if String.eqb itemType "project" then trim reference
            else "Task #" +:+ taskCode)
       ∧ Task.elapsedMs task = Finite 0 ∧ Task.logs task = []
       ∧ Task.isRunning task = false ∧ Task.startedAt task = None
       ∧ Task.isArchived task = false
       ∧ Task.createdAt task = now ∧ Task.lastUpdatedMs task = now
       ∧ pendingLog (submitTask uuid itemType name description critical
                                reference taskCode now s) = pendingLog s).
Proof.
  unfold submitTask. split; [|split].
  - by intros ->.
  - intros -> ->. simpl. by destruct (String.eqb (trim name) EmptyString).
  - intros Hname%String.eqb_neq Href. rewrite Hname.
    assert (String.eqb itemType "project"
            && String.eqb (trim reference) EmptyString = false) as ->.
    { apply andb_false_iff.
      destruct Href as [?%String.eqb_neq | ?%String.eqb_neq]; auto. }
    rewrite trim_idem, Hname. eexists. simpl. repeat split.
Qed.

Lemma submitTask_spec_witness :
  trim " Errands " ≠ EmptyString
  ∧ (∃ task,
       tasks (submitTask "t7" "task" " Errands " " weekly " false EmptyString
                         "002" 40 sampleState) = task :: tasks sampleState
       ∧ Task.id task = "t7" ∧ Task.name task = "Errands"
       ∧ Task.reference task = "Task #002")
  ∧ submitTask "t8" "project" "Audit" EmptyString true "   " "003" 41
               sampleState = sampleState
  ∧ submitTask "t9" "task" "   " EmptyString true EmptyString "004" 42
               sampleState = sampleState.
Proof.
  destruct (submitTask_spec "t7" "task" " Errands " " weekly " false
              EmptyString "002" 40 sampleState) as (_ & _ & Hadd).
  destruct (Hadd ltac:(discriminate) ltac:(left; discriminate))
    as (task & Htasks & Hid & Hname & Href & _).
  destruct (submitTask_spec "t8" "project" "Audit" EmptyString true "   "
              "003" 41 sampleState) as (_ & Hproject & _).
  destruct (submitTask_spec "t9" "task" "   " EmptyString true EmptyString
              "004" 42 sampleState) as (Hblank & _).
  split; [discriminate|].
  split; [exists task; repeat split; assumption|].
  split; [exact (Hproject eq_refl eq_refl)|exact (Hblank eq_refl)].
Defined.

(** X13.  A session that is started, stopped and then discarded on a
    task that was neither running nor archived leaves the task as it
    was but for three fields: [lastLog] holds the discard marker,
    [lastUpdatedMs] the time of the discard, and [startedAt] is
    absent, also where an earlier discard had left a stale one on the
    idle task.  The committed time and the logs are as before the
    start, the task is idle, no session is pending, and the other
    tasks are as they were. *)
Theorem discarded_session_leaves_no_trace (id : string)
    (now1 now2 now3 now4 now5 : Z) (s : State) (task : Task.t) :
  findTask id (tasks s) = Some task →
  Task.isRunning task = false → Task.isArchived task = false →
  (∃ task',
     findTask id
       (tasks (discardLog now5 (stopTimer id now3 now4
                                  (startTimer id now1 now2 s))))
     = Some task'
     ∧ task' = Task.set_lastUpdatedMs now5
                 (Task.set_lastLog (Some "Discarded session")
                    (Task.set_startedAt None task))
     ∧ Task.elapsedMs task' = Task.elapsedMs task
     ∧ Task.logs task' = Task.logs task
     ∧ Task.isRunning task' = false)
  ∧ pendingLog (discardLog now5 (stopTimer id now3 now4
                                   (startTimer id now1 now2 s))) = None
  ∧ ∀ id', id' ≠ id →
      findTask id'
        (tasks (discardLog now5 (stopTimer id now3 now4
                                   (startTimer id now1 now2 s))))
      = findTask id' (tasks s).
Proof.
  intros Hfind Hrun Harch.
  pose proof (findTask_id _ _ _ Hfind) as Hid.
  set (s1 := startTimer id now1 now2 s).
  assert (tasks s1 = mutateTask id
            (λ task, Task.set_lastUpdatedMs now2
                       (Task.set_startedAt (Some now1)
                          (Task.set_isRunning true task))) (tasks s)) as Hs1.
  { unfold s1, startTimer. by rewrite Hfind, Hrun, Harch. }
  assert (findTask id (tasks s1)
          = Some (Task.set_lastUpdatedMs now2
                    (Task.set_startedAt (Some now1)
                       (Task.set_isRunning true task)))) as Hfind1.
  { by rewrite Hs1, findTask_mutateTask, Hfind. }
  set (s2 := stopTimer id now3 now4 s1).
  assert (pendingLog s2 = Some (Pending.mk id (Finite (now3 - now1)))
          ∧ tasks s2 = mutateTask id
              (λ task, Task.set_lastUpdatedMs now4
                         (Task.set_startedAt None
                            (Task.set_isRunning false task))) (tasks s1))
    as [Hp2 Hs2].
  { unfold s2, stopTimer. rewrite Hfind1. simpl. by rewrite Hid. }
  unfold discardLog. rewrite Hp2. simpl. split; [|split; [done|]].
  - rewrite findTask_mutateTask, Hs2, findTask_mutateTask, Hfind1 by done.
    simpl. eexists. split; [reflexivity|].
    destruct task. simpl in *. subst. by repeat split.
  - intros id' Hne.
    by rewrite findTask_mutateTask_ne, Hs2, findTask_mutateTask_ne, Hs1,
      findTask_mutateTask_ne.
Qed.

Lemma discarded_session_leaves_no_trace_witness :
  findTask "t1" (tasks staleState) = Some staleTask
  ∧ Task.isRunning staleTask = false ∧ Task.isArchived staleTask = false
  ∧ Task.startedAt staleTask = Some 650000
  ∧ ∃ task',
      findTask "t1"
        (tasks (discardLog 900000
                  (stopTimer "t1" 800010 800011
                     (startTimer "t1" 800000 800001 staleState))))
      = Some task'
      ∧ task' = Task.set_lastUpdatedMs 900000
                  (Task.set_lastLog (Some "Discarded session")
                     (Task.set_startedAt None staleTask))
      ∧ Task.elapsedMs task' = Task.elapsedMs staleTask
      ∧ Task.logs task' = Task.logs staleTask
      ∧ Task.isRunning task' = false.
Proof.
  split; [reflexivity|]. split; [reflexivity|]. split; [reflexivity|].
  split; [reflexivity|].
  exact (proj1 (discarded_session_leaves_no_trace "t1" 800000 800001 800010
                  800011 900000 staleState staleTask eq_refl eq_refl
                  eq_refl)).
Defined.

(** ** What every run keeps *)

Section Runs.

Implicit Types (id : string) (s : State) (ts : list Task.t) (t : Task.t)
  (e : event) (es : list event).

Lemma run_cons e es s : run (e :: es) s = run es (handle e s).
Proof. done. Qed.


(** What one handler does to the logs of a task it keeps. *)
Lemma handle_logs id e s task :
  findTask id (tasks s) = Some task → keeps id e →
  ∃ task' new,
    findTask id (tasks (handle e s)) = Some task'
    ∧ Task.logs task' = new ++ Task.logs task
    ∧ Log.duration <$> new = formatDuration <$> commitments id [e] s.
Proof.
  intros Hfind Hkeeps.
  assert (∃ task' new, findTask id (tasks s) = Some task'
                       ∧ Task.logs task' = new ++ Task.logs task
                       ∧ Log.duration <$> new = formatDuration <$> [])
    as Hsame by (by exists task, []).
  destruct e; simpl in *.
  - unfold submitTask. repeat case_match; simpl; try done.
    all: by rewrite decide_False.
  - unfold startTimer. repeat case_match; simpl; try done.
    eexists _, []. split; [by apply findTask_mutateTask_cases|].
    by case_decide.
  - unfold stopTimer. repeat case_match; simpl; try done.
    eexists _, []. split; [by apply findTask_mutateTask_cases|].
    by case_decide.
  - unfold submitLog, finalizeLog.
    destruct (pendingLog s) as [pending|] eqn:Hp; simpl; [|done].
    destruct (String.eqb (trim text0) EmptyString) eqn:Htext; simpl.
    { apply String.eqb_eq in Htext. rewrite decide_False; [done|].
      by intros [_ ?]. }
    apply String.eqb_neq in Htext.
    destruct (findTask (Pending.id pending) (tasks s)) as [found|] eqn:Hf;
      simpl.
    + destruct (decide (id = Pending.id pending)) as [->|Hne].
      * assert (found = task) as -> by congruence.
        eexists _, [_]. split; [by apply findTask_mutateTask_cases|].
        rewrite !decide_True by done. simpl. split; reflexivity.
      * eexists _, []. split; [by apply findTask_mutateTask_cases|].
        rewrite !decide_False; [done| |done]. by intros [? _].
    + rewrite decide_False; [done|]. intros [Hid _]. congruence.
  - unfold discardLog. repeat case_match; simpl; try done.
    eexists _, []. split; [by apply findTask_mutateTask_cases|].
    by case_decide.
  - unfold markChecked. repeat case_match; simpl; try done.
    eexists _, []. split; [by apply findTask_mutateTask_cases|].
    by case_decide.
  - unfold archiveTask. repeat case_match; simpl; try done.
    eexists _, []. split; [by apply findTask_mutateTask_cases|].
    by case_decide.
  - unfold deleteTask. repeat case_match; simpl; try done.
    by rewrite findTask_removeTask_ne.
Qed.

Lemma commitments_single id e s :
  commitments id [e] s = []
  ∨ ∃ pending, pendingLog s = Some pending
               ∧ commitments id [e] s = [Pending.duration pending].
Proof.
  simpl. destruct e; try by left.
  destruct (pendingLog s) as [pending|]; [|by left].
  case_decide; [right; by exists pending|by left].
Qed.

Lemma handle_stamped clock clock' e s :
  ticks clock (readings e) clock' →
  Forall (stamped clock) (tasks s) →
  Forall (stamped clock') (tasks (handle e s)).
Proof.
  intros Hticks Hs.
  pose proof (ticks_le _ _ _ Hticks) as Hle.
  assert (Forall (stamped clock') (tasks s)) as Hs'.
  { eapply Forall_impl; [done|]. unfold stamped. intros t. lia. }
  assert (∀ (f : Task.t → Task.t) id,
            (∀ t, stamped clock t → stamped clock' (f t)) →
            Forall (stamped clock') (mutateTask id f (tasks s))) as Hmut.
  { intros f id Hf. induction Hs as [|u ts Hu Hts IH]; simpl; [done|].
    apply Forall_cons in Hs' as [Hu' Hts'].
    case_decide; constructor; auto. }
  destruct e; simpl in *.
  - unfold submitTask. repeat case_match; simpl; try done;
      (constructor; [|done]); unfold stamped; simpl; lia.
  - unfold startTimer. repeat case_match; simpl; try done.
    apply Hmut. unfold stamped. simpl. intros u. lia.
  - unfold stopTimer. repeat case_match; simpl; try done.
    apply Hmut. unfold stamped. simpl. intros u. lia.
  - unfold submitLog, finalizeLog. repeat case_match; simpl; try done.
    apply Hmut. unfold stamped. simpl. intros u. lia.
  - unfold discardLog. repeat case_match; simpl; try done.
    apply Hmut. unfold stamped. simpl. intros u. lia.
  - unfold markChecked. repeat case_match; simpl; try done.
    apply Hmut. unfold stamped. simpl. intros u. lia.
  - unfold archiveTask. repeat case_match; simpl; try done.
    apply Hmut. unfold stamped. simpl. intros u. lia.
  - unfold deleteTask. repeat case_match; simpl; try done.
    by apply Forall_removeTask.
Qed.

(** A pending session has a duration that is finite and not
    negative. *)
Lemma reachable_pending clock s pending :
  reachable clock s → pendingLog s = Some pending →
  ∃ d, Pending.duration pending = Finite d ∧ 0 ≤ d.
Proof.
  intros Hreach. revert pending.
  induction Hreach as [clock ts warning Hts|clock s e clock' Hreach IH Hticks];
    intros pending; [done|].
  pose proof (reachable_clocked _ _ Hreach) as Hclocked.
  destruct e; simpl in *.
  - unfold submitTask. repeat case_match; simpl; auto.
  - unfold startTimer. repeat case_match; simpl; auto.
  - unfold stopTimer.
    destruct (findTask id (tasks s)) as [task|] eqn:Hfind; [|by auto].
    destruct (Task.isRunning task) eqn:Hrun; simpl; [|by auto].
    intros [= <-]. simpl.
    apply findTask_elem in Hfind. rewrite Forall_forall in Hclocked.
    destruct (Hclocked task Hfind Hrun) as (t0 & -> & Ht0).
    exists (now1 - t0). split; [done|]. lia.
  - unfold submitLog, finalizeLog.
    destruct (pendingLog s) as [p|] eqn:Hp; simpl; [|by rewrite Hp].
    destruct (String.eqb (trim text0) EmptyString); simpl; [by auto|].
    destruct (findTask (Pending.id p) (tasks s)); simpl; [done|].
    rewrite Hp. by auto.
  - unfold discardLog.
    destruct (pendingLog s) eqn:Hp; simpl; [done|by rewrite Hp].
  - unfold markChecked. repeat case_match; simpl; auto.
  - unfold archiveTask. repeat case_match; simpl; auto.
  - unfold deleteTask. repeat case_match; simpl; auto.
Qed.

End Runs.



(** X15.  The logs of a task only grow, at the front: after any run
    that neither deletes the task nor creates one with its id, the
    task's logs are its earlier logs behind the new entries, and the
    new entries are those of the sessions confirmed for the task, the
    most recent first, each with its duration as [formatDuration]
    writes it. *)
Theorem logs_grow_at_front (id : string) (es : list event) (s : State)
    (task : Task.t) :
  findTask id (tasks s) = Some task → Forall (keeps id) es →
  ∃ task' new,
    findTask id (tasks (run es s)) = Some task'
    ∧ Task.logs task' = new ++ Task.logs task
    ∧ Log.duration <$> new
      = formatDuration <$> reverse (commitments id es s).
Proof.
  intros Hfind Hes. revert s task Hfind.
  induction Hes as [|e es He _ IH]; intros s task Hfind.
  - by exists task, [].
  - destruct (handle_logs id e s task Hfind He)
      as (t1 & new1 & Hfind1 & Hlogs1 & Hnew1).
    destruct (IH _ _ Hfind1) as (t2 & new2 & Hfind2 & Hlogs2 & Hnew2).
    exists t2, (new2 ++ new1). split; [done|].
    split; [by rewrite Hlogs2, Hlogs1, app_assoc|].
    rewrite (commitments_cons id e es s), reverse_app, !fmap_app.
    rewrite Hnew2, Hnew1. f_equal.
    destruct (commitments_single id e s) as [->|(p & _ & ->)]; done.
Qed.

Lemma logs_grow_at_front_witness :
  findTask "t1" (tasks twoTasks) = Some sampleTask
  ∧ Forall (keeps "t1") busyDay
  ∧ ∃ task' new,
      findTask "t1" (tasks (run busyDay twoTasks)) = Some task'
      ∧ Task.logs task' = new ++ Task.logs sampleTask
      ∧ Log.duration <$> new = ["00:05:00"; "00:10:00"].
Proof.
  assert (Forall (keeps "t1") busyDay) as Hkeeps by (repeat constructor).
  split; [reflexivity|]. split; [exact Hkeeps|].
  exact (logs_grow_at_front "t1" busyDay twoTasks sampleTask eq_refl Hkeeps).
Defined.

(** X16.  On a clock that does not run backwards, no run of the
    handlers moves a task's [lastUpdatedMs] before its [createdAt] or
    beyond the clock: when every task was created before its last
    update and updated before the clock's reading, the same holds
    after the run. *)
Theorem updates_follow_creation (clock clock' : Z) (es : list event)
    (s : State) :
  Forall (stamped clock) (tasks s) → timed clock es clock' →
  Forall (stamped clock') (tasks (run es s)) ∧ clock ≤ clock'.
Proof.
  revert clock s. induction es as [|e es IH]; intros clock s Hs Htimed.
  - simpl in Htimed. subst clock'. split; [done|lia].
  - destruct Htimed as (mid & Hticks & Hrest).
    destruct (IH mid (handle e s)) as [Hafter Hle];
      [by eapply handle_stamped|done|].
    split; [done|]. pose proof (ticks_le _ _ _ Hticks). lia.
Qed.

Lemma updates_follow_creation_witness :
  Forall (stamped 6) (tasks twoTasks)
  ∧ timed 6 busyDay 1000010
  ∧ Forall (stamped 1000010) (tasks (run busyDay twoTasks)).
Proof.
  assert (Forall (stamped 6) (tasks twoTasks)) as Hs.
  { repeat constructor; simpl; lia. }
  assert (timed 6 busyDay 1000010) as Htimed.
  { simpl. repeat (eexists; split; [repeat split; try reflexivity; lia|]).
    reflexivity. }
  split; [exact Hs|]. split; [exact Htimed|].
  exact (proj1 (updates_follow_creation 6 1000010 busyDay twoTasks Hs Htimed)).
Defined.

(** X17.  In the states the engine reaches, on a clock that does not
    run backwards, the committed time of a task never goes down: after
    any further run that neither deletes the task nor creates one with
    its id, a finite [elapsedMs] is finite still and not smaller. *)
Theorem elapsedMs_never_decreases (clock clock' : Z) (id : string)
    (es : list event) (s : State) (task : Task.t) (ms : Z) :
  reachable clock s → timed clock es clock' → Forall (keeps id) es →
  findTask id (tasks s) = Some task → Task.elapsedMs task = Finite ms →
  ∃ task' ms',
    findTask id (tasks (run es s)) = Some task'
    ∧ Task.elapsedMs task' = Finite ms' ∧ ms ≤ ms'.
Proof.
  intros Hreach Htimed Hes. revert clock s task ms Hreach Htimed.
  induction Hes as [|e es He _ IH];
    intros clock s task ms Hreach Htimed Hfind Hms.
  - exists task, ms. split; [done|]. split; [done|lia].
  - destruct Htimed as (mid & Hticks & Hrest).
    destruct (handle_elapsedMs id e s task Hfind He) as (t1 & Hfind1 & Hms1).
    assert (∃ d, total (commitments id [e] s) = Finite d ∧ 0 ≤ d)
      as (d & Hd & Hpos).
    { destruct (commitments_single id e s) as [->|(p & Hp & ->)].
      - by exists 0.
      - destruct (reachable_pending _ _ _ Hreach Hp) as (d & Hd & Hpos).
        exists d. unfold total. simpl. rewrite Hd. simpl.
        split; [f_equal; lia|done]. }
    rewrite Hms, Hd in Hms1. simpl in Hms1.
    destruct (IH mid (handle e s) t1 (ms + d)) as (t2 & ms2 & Hfind2 & Hms2 & Hle);
      [by eapply reach_handle|done|done|done|].
    exists t2, ms2. rewrite run_cons. split; [done|]. split; [done|lia].
Qed.

Lemma elapsedMs_never_decreases_witness :
  reachable 6 twoTasks ∧ timed 6 busyDay 1000010
  ∧ Forall (keeps "t1") busyDay
  ∧ findTask "t1" (tasks twoTasks) = Some sampleTask
  ∧ Task.elapsedMs sampleTask = Finite 1000
  ∧ ∃ task' ms',
      findTask "t1" (tasks (run busyDay twoTasks)) = Some task'
      ∧ Task.elapsedMs task' = Finite ms' ∧ 1000 ≤ ms'.
Proof.
  assert (reachable 6 twoTasks) as Hreach
    by (apply reach_bootstrap; repeat constructor).
  assert (timed 6 busyDay 1000010) as Htimed.
  { simpl. repeat (eexists; split; [repeat split; try reflexivity; lia|]).
    reflexivity. }
  assert (Forall (keeps "t1") busyDay) as Hkeeps by (repeat constructor).
  split; [exact Hreach|]. split; [exact Htimed|]. split; [exact Hkeeps|].
  split; [reflexivity|]. split; [reflexivity|].
  exact (elapsedMs_never_decreases 6 1000010 "t1" busyDay twoTasks sampleTask
           1000 Hreach Htimed Hkeeps eq_refl eq_refl).
Defined.

(** ** Saving and restoring *)

Section Reload.

Implicit Types (t : Task.t) (s : State).

Lemma orElse_text d : orElse (VStr d) (VStr EmptyString) = VStr d.
Proof.
  unfold orElse. simpl. destruct (String.eqb_spec d EmptyString); by subst.
Qed.

(** A saved task comes back as it was saved, without its session. *)
Lemma normalizeTask_taskToJson now t :
  sound t → normalizeTask now (taskToJson t) = Some (taskToJson (halted t)).
Proof.
  intros (Htrim & Hne%String.eqb_neq & ms & Hms).
  destruct t as [id type name reference description isCritical elapsedMs logs
                 isRunning startedAt isArchived lastLog createdAt lastUpdatedMs
                 lastChecked].
  simpl in *. subst elapsedMs.
  unfold normalizeTask.
  assert (∀ k v, taskToJson
            (Task.mk id type name reference description isCritical (Finite ms)
               logs isRunning startedAt isArchived lastLog createdAt
               lastUpdatedMs lastChecked) !! k = Some v →
          get (taskToJson
            (Task.mk id type name reference description isCritical (Finite ms)
               logs isRunning startedAt isArchived lastLog createdAt
               lastUpdatedMs lastChecked)) k = v) as Hget
    by (intros k v Hk; by apply get_lookup).
  rewrite (Hget "createdAt" (VNum (Finite createdAt)))
    by (by destruct startedAt).
  rewrite (Hget "lastUpdatedMs" (VNum (Finite lastUpdatedMs)))
    by (by destruct startedAt).
  rewrite (Hget "name" (VStr name)) by (by destruct startedAt).
  rewrite (Hget "lastChecked" (nullable (λ z, VNum (Finite z)) lastChecked))
    by (by destruct startedAt).
  rewrite (Hget "isArchived" (VBool isArchived)) by (by destruct startedAt).
  rewrite (Hget "elapsedMs" (VNum (Finite ms))) by (by destruct startedAt).
  rewrite (Hget "logs" (VArr (logToJson <$> logs))) by (by destruct startedAt).
  rewrite (Hget "description" (VStr description)) by (by destruct startedAt).
  simpl. rewrite Htrim, orElse_text.
  assert (orElse (VStr name) (VStr "Untitled item") = VStr name) as ->.
  { unfold orElse. simpl. by rewrite Hne. }
  assert (coalesce (nullable (λ z, VNum (Finite z)) lastChecked) VNull
          = nullable (λ z, VNum (Finite z)) lastChecked) as ->
    by (by destruct lastChecked).
  f_equal. unfold taskToJson, halted. simpl.
  destruct startedAt; reflexivity.
Qed.

Lemma normalizeFrom_persist clock i ts :
  Forall sound ts →
  normalizeFrom clock i (taskToJson <$> ts)
  = Some (taskToJson <$> (halted <$> ts)).
Proof.
  intros Hts. revert i. induction Hts as [|t ts Ht _ IH]; intros i; [done|].
  simpl. rewrite (normalizeTask_taskToJson _ _ Ht). simpl.
  by rewrite IH.
Qed.

End Reload.

(** X18.  Saving and reloading loses nothing but the running
    sessions: when every task has a trimmed name that is not empty
    and a finite [elapsedMs], [bootstrapApp] installs from the payload
    that [persist] wrote the same tasks, each without its session,
    whatever the clock reads.  An empty store is not reloaded as
    empty: the bootstrap tasks are installed in its place. *)
Theorem reload_round_trip (clock : nat → Z) (s : State)
    (bootstrap : list (gmap string value)) :
  Forall sound (tasks s) →
  (tasks s ≠ [] →
   bootstrapTasks clock (Some (persist s)) bootstrap
   = Some (taskToJson <$> (halted <$> tasks s)))
  ∧ (tasks s = [] →
     bootstrapTasks clock (Some (persist s)) bootstrap
     = bootstrapTasks clock None bootstrap).
Proof.
  intros Hs. unfold bootstrapTasks, persist. split.
  - intros Hne. destruct (tasks s) as [|t ts] eqn:E; [done|].
    change (seededTasks (Some (taskToJson <$> t :: ts)) bootstrap)
      with (taskToJson <$> t :: ts).
    by apply normalizeFrom_persist.
  - by intros ->.
Qed.

Lemma reload_round_trip_witness :
  Forall sound (tasks runningState)
  ∧ tasks runningState ≠ []
  ∧ bootstrapTasks (λ _, 9) (Some (persist runningState)) []
    = Some [taskToJson (Task.set_lastUpdatedMs 11 sampleTask)].
Proof.
  assert (Forall sound (tasks runningState)) as Hs.
  { constructor; [|constructor].
    split; [reflexivity|]. split; [discriminate|]. by exists 1000. }
  split; [exact Hs|]. split; [discriminate|].
  exact (proj1 (reload_round_trip (λ _, 9) runningState [] Hs)
           ltac:(discriminate)).
Defined.

(** ** Reading the export back *)

Section CsvReader.

Implicit Types (v tail : string) (row : list string)
  (rows : list (list string)).

Lemma append_assoc_text (a b c : string) : (a +:+ b) +:+ c = a +:+ (b +:+ c).
Proof.
  induction a as [|x a IH]; [done|].
  change (String x ((a +:+ b) +:+ c) = String x (a +:+ (b +:+ c))).
  by f_equal.
Qed.

Lemma append_empty_r (a : string) : a +:+ EmptyString = a.
Proof.
  induction a as [|x a IH]; [done|].
  change (String x (a +:+ EmptyString) = String x a). by f_equal.
Qed.

Lemma readField_doubleQuotes v tail :
  unquoted tail →
  readField (doubleQuotes v +:+ String dquote tail) = Some (v, tail).
Proof.
  intros Htail. induction v as [|c v IH]; simpl.
  - destruct tail as [|d rest]; [done|]. simpl in Htail. by rewrite Htail.
  - destruct (Ascii.eqb c dquote) eqn:E.
    + apply Ascii.eqb_eq in E as ->.
      change (readField (String dquote (String dquote (doubleQuotes v))
                         +:+ String dquote tail))
        with ((λ p, (String dquote p.1, p.2))
                <$> readField (doubleQuotes v +:+ String dquote tail)).
      by rewrite IH.
    + simpl. rewrite E, IH. done.
Qed.

Lemma quoteField_append v tail :
  quoteField v +:+ tail
  = String dquote (doubleQuotes v +:+ String dquote tail).
Proof.
  unfold quoteField. simpl. f_equal. by rewrite append_assoc_text.
Qed.

Lemma csvText_field f fs rows :
  csvText ((f :: fs) :: rows)
  = quoteField f
    +:+ match fs, rows with
        | [], [] => EmptyString
        | [], _ => String newline (csvText rows)
        | _, _ => String "," (csvText (fs :: rows))
        end.
Proof.
  unfold csvText.
  destruct fs as [|g gs], rows as [|row rows]; simpl;
    rewrite ?append_empty_r, ?append_assoc_text; done.
Qed.

Lemma readCsv_last fuel f : readCsv (S fuel) (quoteField f) = Some [[f]].
Proof.
  rewrite <- (append_empty_r (quoteField f)), quoteField_append.
  cbn [readCsv]. change (Ascii.eqb dquote dquote) with true. cbv iota.
  by rewrite readField_doubleQuotes.
Qed.

Lemma readCsv_step fuel f c rest :
  Ascii.eqb c dquote = false →
  readCsv (S fuel) (quoteField f +:+ String c rest)
  = if Ascii.eqb c "," then
      match readCsv fuel rest with
      | Some (row :: more) => Some ((f :: row) :: more)
      | _ => None
      end
    else if Ascii.eqb c newline then
      match readCsv fuel rest with
      | Some rows => Some ([f] :: rows)
      | None => None
      end
    else None.
Proof.
  intros Hc. rewrite quoteField_append.
  cbn [readCsv]. change (Ascii.eqb dquote dquote) with true. cbv iota.
  by rewrite readField_doubleQuotes.
Qed.

Lemma readCsv_text rows :
  rows ≠ [] → Forall (λ row, row ≠ []) rows →
  ∀ fuel, (length (concat rows) ≤ fuel)%nat →
          readCsv fuel (csvText rows) = Some rows.
Proof.
  intros Hne Hrows. induction Hrows as [|row rows Hrow Hrows IH]; [done|].
  clear Hne. destruct row as [|f fs]; [done|]. clear Hrow.
  revert f. induction fs as [|g gs IHfs]; intros f fuel Hfuel.
  - rewrite csvText_field. destruct fuel as [|fuel]; [simpl in Hfuel; lia|].
    destruct rows as [|row rows].
    + rewrite append_empty_r. apply readCsv_last.
    + rewrite readCsv_step by done.
      change (Ascii.eqb newline ",") with false.
      change (Ascii.eqb newline newline) with true. cbv iota.
      rewrite IH; [done|done|]. simpl in Hfuel |- *. lia.
  - rewrite csvText_field. destruct fuel as [|fuel]; [simpl in Hfuel; lia|].
    rewrite readCsv_step by done.
    change (Ascii.eqb "," ",") with true. cbv iota.
    rewrite IHfs; [done|]. simpl in Hfuel |- *. lia.
Qed.

End CsvReader.

(** X19.  The text that [exportTask] writes reads back, field by
    field, to the header row and one row per log entry in the order of
    the logs, with the task's name and the entry's date, duration and
    comment exactly as they are, whatever commas, double quotes and
    line feeds they hold. *)
Theorem exportTask_reads_back (task : Task.t) (text : string) (fuel : nat) :
  exportTask task = Some text →
  (4 * S (length (Task.logs task)) ≤ fuel)%nat →
  readCsv fuel text = Some (csvRows task)
  ∧ length (csvRows task) = S (length (Task.logs task)).
Proof.
  intros Hexport Hfuel.
  assert (text = csvText (csvRows task)) as ->.
  { unfold exportTask in Hexport. unfold csvText, csvRows.
    destruct (Task.logs task); [done|]. by injection Hexport as <-. }
  split; [|unfold csvRows; simpl; f_equal; apply length_fmap].
  apply readCsv_text; [done| |].
  - constructor; [done|]. apply Forall_fmap, Forall_forall. by intros.
  - assert (∀ logs : list Log.t,
              length (concat ((λ log, [Task.name task; Log.date log;
                                       Log.duration log; Log.comment log])
                              <$> logs)) = 4 * length logs)%nat as Hlen.
    { intros logs. induction logs as [|log logs IH]; [done|].
      rewrite fmap_cons, concat_cons, length_app, IH. simpl. lia. }
    unfold csvRows. rewrite concat_cons, length_app, Hlen. simpl. lia.
Qed.

Lemma exportTask_reads_back_witness :
  (∃ text,
     exportTask awkwardTask = Some text
     ∧ readCsv 8 text
       = Some [["Name"; "Date"; "Time Spent"; "Comment"];
               ["Task, A"; "1/1/2024"; "00:10:00";
                "Said " +:+ quoted "hi" +:+ "," +:+ String newline "then left"]])
  ∧ (4 * S (length (Task.logs awkwardTask)) ≤ 8)%nat.
Proof.
  split; [|simpl; lia].
  eexists. split; [reflexivity|].
  exact (proj1 (exportTask_reads_back awkwardTask _ 8 eq_refl
                  ltac:(simpl; lia))).
Defined.

(** ** Duplicate warnings *)

Section Hints.

Implicit Types (k : string) (objects : list (gmap string value))
  (ts : list Task.t).

Lemma names_occurrences objects k :
  k ∈ names (calculateDuplicates objects)
  ↔ k ≠ EmptyString ∧ (2 ≤ occurrences "name" k objects)%nat.
Proof.
  unfold occurrences. simpl. rewrite repeated_tally.
  split; intros [Hk Hn]; (split; [done|]).
  - by rewrite <- (list_filter_iff _ _ objects (λ t, nameKey_keyed t k Hk)).
  - by rewrite (list_filter_iff _ _ objects (λ t, nameKey_keyed t k Hk)).
Qed.

Lemma references_occurrences objects k :
  k ∈ references (calculateDuplicates objects)
  ↔ k ≠ EmptyString ∧ (2 ≤ occurrences "reference" k objects)%nat.
Proof.
  unfold occurrences. simpl. rewrite repeated_tally.
  split; intros [Hk Hn]; (split; [done|]).
  - by rewrite <- (list_filter_iff _ _ objects
                     (λ t, referenceKey_keyed t k Hk)).
  - by rewrite (list_filter_iff _ _ objects (λ t, referenceKey_keyed t k Hk)).
Qed.

Lemma filter_one {A} (P : A → Prop) `{!∀ x, Decision (P x)} (l : list A) :
  (1 ≤ length (filter P l))%nat ↔ ∃ j y, l !! j = Some y ∧ P y.
Proof.
  induction l as [|a l IH]; simpl.
  - split; [lia|]. by intros (j & y & ? & _).
  - rewrite filter_cons. case_decide as Ha; simpl.
    + split; [|lia]. intros _. by exists 0%nat, a.
    + rewrite IH. split.
      * intros (j & y & Hj & Hy). by exists (S j), y.
      * intros ([|j] & y & Hj & Hy); simpl in Hj; [by simplify_eq|eauto].
Qed.

(** An element is counted twice over exactly when another position
    holds an element of the same kind. *)
Lemma filter_two {A} (P : A → Prop) `{!∀ x, Decision (P x)} (l : list A) i x :
  l !! i = Some x → P x →
  (2 ≤ length (filter P l))%nat ↔ ∃ j y, j ≠ i ∧ l !! j = Some y ∧ P y.
Proof.
  revert i. induction l as [|a l IH]; intros i Hi Hx; [done|].
  rewrite filter_cons. destruct i as [|i]; simpl in Hi.
  - injection Hi as ->. rewrite decide_True by done. simpl.
    assert (2 ≤ S (length (filter P l)) ↔ 1 ≤ length (filter P l))%nat
      as -> by lia.
    rewrite filter_one. split.
    + intros (j & y & Hj & Hy). by exists (S j), y.
    + intros ([|j] & y & Hne & Hj & Hy); [done|]. by exists j, y.
  - case_decide as Ha; simpl.
    + split.
      * intros _. by exists 0%nat, a.
      * intros _.
        assert (1 ≤ length (filter P l))%nat; [|lia].
        apply filter_one. by exists i, x.
    + rewrite (IH i Hi Hx). split.
      * intros (j & y & Hne & Hj & Hy). exists (S j), y. split; [lia|done].
      * intros ([|j] & y & Hne & Hj & Hy); simpl in Hj; [by simplify_eq|].
        exists j, y. split; [lia|done].
Qed.

Lemma occurrences_tasks (field : string) (proj : Task.t → string) ts k :
  (∀ t, get (taskToJson t) field = VStr (proj t)) →
  occurrences field k (taskToJson <$> ts)
  = length (filter (λ t, toLowerCase (trim (proj t)) = k) ts).
Proof.
  intros Hget. unfold occurrences.
  induction ts as [|t ts IH]; [done|].
  rewrite fmap_cons, !filter_cons.
  assert (keyed field k (taskToJson t) ↔ toLowerCase (trim (proj t)) = k)
    as Hiff.
  { unfold keyed. rewrite Hget. split; [by intros (v & [= <-] & ?)|eauto]. }
  repeat case_decide; simpl; rewrite ?IH; try done; tauto.
Qed.

Lemma taskToJson_reference t :
  get (taskToJson t) "reference" = VStr (Task.reference t).
Proof. unfold taskToJson. by destruct (Task.startedAt t). Qed.

End Hints.

(** X20.  The note on the name in the task form is shown exactly when
    the typed name, trimmed and lower-cased, is not empty and is
    already the name of at least two tasks of the store; one task
    with that name does not raise it.  The note on the reference is
    shown on the same condition on the references, and only while the
    form is set to a project. *)
Theorem updateDuplicateHints_spec (itemType name reference : string)
    (objects : list (gmap string value)) :
  ((updateDuplicateHints itemType name reference objects).1 = true
   ↔ toLowerCase (trim name) ≠ EmptyString
     ∧ (2 ≤ occurrences "name" (toLowerCase (trim name)) objects)%nat)
  ∧ ((updateDuplicateHints itemType name reference objects).2 = true
     ↔ itemType = "project"
       ∧ toLowerCase (trim reference) ≠ EmptyString
       ∧ (2 ≤ occurrences "reference" (toLowerCase (trim reference))
                objects)%nat).
Proof.
  unfold updateDuplicateHints. cbv zeta. cbn [fst snd]. split.
  - rewrite andb_true_iff, negb_true_iff, String.eqb_neq,
      bool_decide_eq_true, names_occurrences. tauto.
  - rewrite !andb_true_iff, negb_true_iff, String.eqb_neq, String.eqb_eq,
      bool_decide_eq_true, references_occurrences. tauto.
Qed.

(** X21.  A row of the table is marked as a duplicate name exactly
    when the task's name, trimmed and lower-cased, is not empty and
    another task of the store has the same; and likewise for the
    reference. *)
Theorem rowDuplicates_spec (s : State) (i : nat) (task : Task.t) :
  tasks s !! i = Some task →
  ((rowDuplicates task s).1 = true
   ↔ toLowerCase (trim (Task.name task)) ≠ EmptyString
     ∧ ∃ j other, j ≠ i ∧ tasks s !! j = Some other
         ∧ toLowerCase (trim (Task.name other))
           = toLowerCase (trim (Task.name task)))
  ∧ ((rowDuplicates task s).2 = true
     ↔ toLowerCase (trim (Task.reference task)) ≠ EmptyString
       ∧ ∃ j other, j ≠ i ∧ tasks s !! j = Some other
           ∧ toLowerCase (trim (Task.reference other))
             = toLowerCase (trim (Task.reference task))).
Proof.
  intros Hi. unfold rowDuplicates. cbv zeta. cbn [fst snd]. split.
  - rewrite andb_true_iff, negb_true_iff, String.eqb_neq,
      bool_decide_eq_true, names_occurrences.
    rewrite (occurrences_tasks "name" Task.name) by apply taskToJson_name.
    rewrite (filter_two
               (λ t, toLowerCase (trim (Task.name t))
                     = toLowerCase (trim (Task.name task)))
               (tasks s) i task Hi eq_refl).
    tauto.
  - rewrite andb_true_iff, negb_true_iff, String.eqb_neq,
      bool_decide_eq_true, references_occurrences.
    rewrite (occurrences_tasks "reference" Task.reference)
      by apply taskToJson_reference.
    rewrite (filter_two
               (λ t, toLowerCase (trim (Task.reference t))
                     = toLowerCase (trim (Task.reference task)))
               (tasks s) i task Hi eq_refl).
    tauto.
Qed.

Lemma rowDuplicates_spec_witness :
  tasks namesakes !! 0%nat = Some sampleTask
  ∧ (rowDuplicates sampleTask namesakes).1 = true.
Proof.
  split; [reflexivity|].
  apply (rowDuplicates_spec namesakes 0 sampleTask eq_refl).
  split; [discriminate|].
  exists 2%nat, namesake. split; [lia|]. split; reflexivity.
Defined.

(** ** The name of the export *)

Section FileName.

Lemma chars_append (a b : string) :
  String.list_ascii_of_string (a +:+ b)
  = String.list_ascii_of_string a ++ String.list_ascii_of_string b.
Proof.
  induction a as [|c a IH]; [done|].
  change (c :: String.list_ascii_of_string (a +:+ b)
          = c :: (String.list_ascii_of_string a ++ String.list_ascii_of_string b)).
  by f_equal.
Qed.

Lemma chars_toLowerCase (s : string) :
  String.list_ascii_of_string (toLowerCase s) = lowerChar <$> String.list_ascii_of_string s.
Proof. induction s as [|c s IH]; simpl; [done|]. by rewrite IH. Qed.

Lemma lowerChar_plain (c : ascii) :
  isWhiteSpace c = false →
  isWhiteSpace (lowerChar c) = false ∧ lowerChar (lowerChar c) = lowerChar c.
Proof.
  destruct c as [[] [] [] [] [] [] [] []]; vm_compute; intros; by simplify_eq.
Qed.

Lemma underscoreSpaces_plain (s : string) :
  Forall (λ c, isWhiteSpace c = false)
         (String.list_ascii_of_string (underscoreSpaces s)).
Proof.
  induction s as [|c s IH]; [constructor|].
  cbn [underscoreSpaces]. destruct (isWhiteSpace c) eqn:Hc.
  - destruct s as [|d s]; [by repeat constructor|].
    destruct (isWhiteSpace d) eqn:Hd; [exact IH|].
    constructor; [done|exact IH].
  - constructor; [done|exact IH].
Qed.

End FileName.

(** X22.  The file name under which [exportTask] offers the download
    holds no white space and no capital letter, whatever the task is
    called, and ends in [_logs.csv]; for a name without white space,
    what stands before is the name in lower case. *)
Theorem exportFileName_plain (task : Task.t) :
  Forall (λ c, isWhiteSpace c = false ∧ lowerChar c = c)
         (String.list_ascii_of_string (exportFileName task))
  ∧ ∃ stem, exportFileName task = stem +:+ "_logs.csv"
            ∧ (Forall (λ c, isWhiteSpace c = false)
                      (String.list_ascii_of_string (Task.name task)) →
               stem = toLowerCase (Task.name task)).
Proof.
  split.
  - unfold exportFileName. rewrite chars_append, chars_toLowerCase.
    apply Forall_app. split.
    + apply Forall_fmap.
      eapply Forall_impl; [apply underscoreSpaces_plain|].
      intros c Hc. simpl. by apply lowerChar_plain.
    + repeat constructor.
  - eexists. split; [reflexivity|]. intros Hplain. f_equal.
    induction (Task.name task) as [|c s IH]; [done|].
    simpl in Hplain. apply Forall_cons in Hplain as [Hc Hs].
    cbn [underscoreSpaces]. rewrite Hc. f_equal. by apply IH.
Qed.
